(** * The entry store of the travel diary

    A shallow embedding of the storage module of the application
    ([validateEntry], [validateEntries], [saveEntry], [getEntries],
    [getEntryById], [removeEntry], [updateEntry], [clearAllEntries],
    [getEntryCount]) and of the parts of the JavaScript platform it runs
    on: values, [typeof], strict equality, [JSON.stringify] / [JSON.parse],
    [Array.prototype.sort], [AsyncStorage], [Date.now] and [Math.random].

    Conventions of the model.
    - An [async] function is run to completion: the interleaving of two
      operations awaiting the backend at the same time is not modelled.
    - [console.warn] and [console.error] are not modelled.
    - A JavaScript object is a finite map from property names to values
      ([gmap]); the order of the properties, which no operation of the
      store observes, is not kept, so that deep equality of two values is
      Rocq's equality.
    - A string kept by the backend is the empty string, a string that is
      not JSON, or a JSON text, kept by its syntax: a text may hold a
      number literal beyond the range of a double, which [JSON.parse]
      reads as an infinity and [JSON.stringify] never writes. *)

From Stdlib Require Import ZArith Ascii String Sorting.Sorted Sorting.Permutation.
From stdpp Require Import gmap strings list fin_maps.

#[local] Set Warnings "-register-all".
#[local] Open Scope Z_scope.

(** ** Values *)

Module JS.

(** A number: a finite one or one of the three others.  The store types
    numbers, compares [createdAt] (an integral count of milliseconds) and
    serialises them; it never computes with a fraction, so a finite number
    is carried as an integer. *)
Inductive number :=
| Fin (z : Z)
| NaN
| PosInf
| NegInf.

(** The values the store meets: the primitives and, by content, arrays and
    plain objects.  Functions, symbols and objects with accessors or a
    [toJSON] method are outside the model. *)
Inductive value :=
| VUndefined
| VNull
| VBool (b : bool)
| VNum (n : number)
| VStr (s : string)
| VArr (xs : list value)
| VObj (props : gmap string value).

Definition finite (n : number) : bool :=
  match n with Fin _ => true | _ => false end.

(** [typeof v] *)
Definition typeof (v : value) : string :=
  match v with
  | VUndefined => "undefined"
  | VNull => "object"
  | VBool _ => "boolean"
  | VNum _ => "number"
  | VStr _ => "string"
  | VArr _ => "object"
  | VObj _ => "object"
  end.

(** [!v] *)
Definition falsy (v : value) : bool :=
  match v with
  | VUndefined | VNull | VBool false | VNum (Fin 0) | VNum NaN | VStr "" => true
  | _ => false
  end.

(** [Array.isArray(v)] *)
Definition isArray (v : value) : bool :=
  match v with VArr _ => true | _ => false end.

(** [v[name]] for the property names the store reads ([id], [imageUri],
    [address], [latitude], [longitude], [createdAt], [title], [notes],
    [tags], [weather]): an own property of an object, [undefined] on an
    array or a primitive.  The store reads a property of [null] or
    [undefined] nowhere. *)
Definition field (v : value) (name : string) : value :=
  match v with
  | VObj props => default VUndefined (props !! name)
  | _ => VUndefined
  end.

(** [o[name] = x] on an object. *)
Definition set_field (name : string) (x : value) (o : value) : value :=
  match o with
  | VObj props => VObj (<[name := x]> props)
  | _ => o
  end.

(** [x === y] on numbers: [NaN] equals nothing. *)
Definition number_eq (x y : number) : bool :=
  match x, y with
  | Fin a, Fin b => a =? b
  | PosInf, PosInf | NegInf, NegInf => true
  | _, _ => false
  end.

(** [a === b].  Two objects are equal when they are the same reference; in
    every comparison of the store one side is a property that passed for a
    string or a number, so the comparison of two objects is [false]. *)
Definition strict_equal (a b : value) : bool :=
  match a, b with
  | VUndefined, VUndefined | VNull, VNull => true
  | VBool x, VBool y => Bool.eqb x y
  | VNum x, VNum y => number_eq x y
  | VStr x, VStr y => String.eqb x y
  | _, _ => false
  end.

(** [x - y] *)
Definition number_sub (x y : number) : number :=
  match x, y with
  | Fin a, Fin b => Fin (a - b)
  | NaN, _ | _, NaN => NaN
  | PosInf, PosInf | NegInf, NegInf => NaN
  | PosInf, _ | _, NegInf => PosInf
  | NegInf, _ | _, PosInf => NegInf
  end.

(** [ToNumber v] for the operands of [-]; the store subtracts the
    [createdAt] of validated entries only, which are numbers, and the
    conversion of a string or an object is not modelled. *)
Definition to_number (v : value) : number :=
  match v with
  | VNum n => n
  | VNull | VBool false => Fin 0
  | VBool true => Fin 1
  | _ => NaN
  end.

(** *** [JSON.stringify] and [JSON.parse]

    A JSON text, by its syntax.  A number literal is that of an integer
    (see [number]) or lies beyond the range of a double ([1e999],
    [-1e999]); the order of the members of an object, which no operation
    of the store observes, and the white space are not kept. *)
Inductive json :=
| JNull
| JBool (b : bool)
| JNumber (z : Z)
| JOverflow (negative : bool)
| JString (s : string)
| JArray (items : list json)
| JObject (members : gmap string json).

(** The value [JSON.parse] returns for a text: a literal beyond the range
    of a double is read as an infinity. *)
Fixpoint json_parse (j : json) : value :=
  match j with
  | JNull => VNull
  | JBool b => VBool b
  | JNumber z => VNum (Fin z)
  | JOverflow negative => VNum (if negative then NegInf else PosInf)
  | JString s => VStr s
  | JArray items => VArr (map json_parse items)
  | JObject members => VObj (json_parse <$> members)
  end.

(** The text [JSON.stringify] writes for a value: none for [undefined]
    ([None]: the property is left out, and an array element is written as
    [null]), and [null] for a number that is not finite. *)
Fixpoint json_stringify (v : value) : option json :=
  match v with
  | VUndefined => None
  | VNull => Some JNull
  | VBool b => Some (JBool b)
  | VNum (Fin z) => Some (JNumber z)
  | VNum _ => Some JNull
  | VStr s => Some (JString s)
  | VArr xs => Some (JArray (map (fun x => default JNull (json_stringify x)) xs))
  | VObj props => Some (JObject (omap json_stringify props))
  end.

(** [reread v] is what [JSON.parse(JSON.stringify(v))] holds where [v]
    stood: nothing for [undefined], and [null] for a number that is not
    finite (lemma [JSON_round_trip]). *)
Fixpoint reread (v : value) : option value :=
  match v with
  | VUndefined => None
  | VNull => Some VNull
  | VBool b => Some (VBool b)
  | VNum n => Some (if finite n then VNum n else VNull)
  | VStr s => Some (VStr s)
  | VArr xs => Some (VArr (map (fun x => default VNull (reread x)) xs))
  | VObj props => Some (VObj (omap reread props))
  end.

(** A string kept by the backend: the empty string, a string that
    [JSON.parse] rejects, or a JSON text. *)
Inductive text :=
| Blank
| Garbled
| Json (j : json).

(** [JSON.stringify(v)].  The store serialises arrays only;
    [JSON.stringify(undefined)] is [undefined] and no string, and the
    model gives it a string that [JSON.parse] rejects. *)
Definition JSON_stringify (v : value) : text :=
  match json_stringify v with
  | Some j => Json j
  | None => Garbled
  end.

(** [JSON.parse t]: [None] stands for the [SyntaxError]. *)
Definition JSON_parse (t : text) : option value :=
  match t with
  | Json j => Some (json_parse j)
  | Blank | Garbled => None
  end.

(** [xs.sort(compareFn)]: the sort is stable, and an element moves behind
    another exactly when [compareFn] of the two is positive.  For a
    comparator that is consistent on the elements this is the result every
    conforming engine returns. *)
Definition positive_number (n : number) : bool :=
  match n with
  | Fin z => 0 <? z
  | PosInf => true
  | _ => false
  end.

Fixpoint sort_insert (compareFn : value -> value -> number)
    (x : value) (xs : list value) : list value :=
  match xs with
  | [] => [x]
  | y :: ys =>
      if positive_number (compareFn x y) then y :: sort_insert compareFn x ys
      else x :: y :: ys
  end.

Definition sort (compareFn : value -> value -> number) (xs : list value) : list value :=
  foldr (sort_insert compareFn) [] xs.

(** [xs.find(p)], [undefined] when no element satisfies [p]. *)
Fixpoint find (p : value -> bool) (xs : list value) : value :=
  match xs with
  | [] => VUndefined
  | x :: xs' => if p x then x else find p xs'
  end.

(** [xs.findIndex(p)], [-1] when no element satisfies [p]. *)
Fixpoint findIndex (p : value -> bool) (xs : list value) : Z :=
  match xs with
  | [] => -1
  | x :: xs' => if p x then 0 else
      let i := findIndex p xs' in if i =? -1 then -1 else i + 1
  end.

(** [n.toString(36)] for an integer [n]. *)
Definition digit36 (d : Z) : ascii :=
  default "0"%char
    (list_ascii_of_string "0123456789abcdefghijklmnopqrstuvwxyz" !! Z.to_nat d).

Fixpoint digits36 (fuel : nat) (n : Z) (acc : string) : string :=
  match fuel with
  | O => acc
  | S fuel' =>
      let acc' := String (digit36 (n mod 36)) acc in
      if n / 36 =? 0 then acc' else digits36 fuel' (n / 36) acc'
  end.

Definition toString36 (n : Z) : string :=
  if n <? 0 then "-" +:+ digits36 (S (Z.to_nat (Z.log2 (- n)))) (- n) ""
  else digits36 (S (Z.to_nat (Z.log2 n))) n "".

(** [s.substr(start, length)] *)
Definition substr (start length : nat) (s : string) : string :=
  substring start length s.

End JS.

Import JS.


(** ** The entry validator *)

(** [StorageKeys.ENTRIES] *)
Definition ENTRIES : string := "@travel_diary_entries".

(** The [requiredFields] table of [validateEntry]: name and [typeof]. *)
Definition requiredFields : list (string * string) :=
  [ ("id", "string"); ("imageUri", "string"); ("address", "string");
    ("latitude", "number"); ("longitude", "number"); ("createdAt", "number") ].

(** [validateEntry]: the test of the entry itself, the loop over
    [requiredFields], which returns [false] at the first field of another
    type, and the four tests of the optional fields. *)
Definition validateEntry (entry : value) : bool :=
  if falsy entry || negb (String.eqb (typeof entry) "object") then false
  else if negb (forallb (fun f => String.eqb (typeof (field entry f.1)) f.2) requiredFields)
  then false
  else if negb (strict_equal (field entry "title") VUndefined)
          && negb (String.eqb (typeof (field entry "title")) "string") then false
  else if negb (strict_equal (field entry "notes") VUndefined)
          && negb (String.eqb (typeof (field entry "notes")) "string") then false
  else if negb (strict_equal (field entry "tags") VUndefined)
          && negb (isArray (field entry "tags")) then false
  else if negb (strict_equal (field entry "weather") VUndefined)
          && negb (String.eqb (typeof (field entry "weather")) "object") then false
  else true.

(** [validateEntries]: an array, every element of which is an entry. *)
Definition validateEntries (entries : value) : bool :=
  match entries with
  | VArr xs => forallb validateEntry xs
  | _ => false
  end.

(** ** Effects

    An operation of the store runs on a state made of the objects the
    caller holds by reference ([heap]) and of the platform ([world]); it
    returns or throws, and in both cases leaves a state behind. *)

Inductive exn := Error (message : string).

Inductive outcome (A : Type) :=
| Ret (a : A)
| Throw (e : exn).
Arguments Ret {A} a.
Arguments Throw {A} e.

(** A reference to an object of the caller. *)
Abbreviation ref := nat.

Record state (W : Type) := State { heap : gmap nat value; world : W }.
Arguments State {W} heap world.
Arguments heap {W} s.
Arguments world {W} s.

Definition M (W A : Type) : Type := state W -> outcome A * state W.

Definition ret {W A} (a : A) : M W A := fun s => (Ret a, s).

Definition throw {W A} (e : exn) : M W A := fun s => (Throw e, s).

Definition bind {W A B} (m : M W A) (k : A -> M W B) : M W B :=
  fun s =>
    match m s with
    | (Ret a, s') => k a s'
    | (Throw e, s') => (Throw e, s')
    end.

(** [try { m } catch (error) { h }] *)
Definition try_catch {W A} (m : M W A) (h : exn -> M W A) : M W A :=
  fun s =>
    match m s with
    | (Ret a, s') => (Ret a, s')
    | (Throw e, s') => h e s'
    end.

(** The object a reference designates; a reference is never dangling in
    the program, and [undefined] stands for one that would be. *)
Definition deref {W} (r : ref) : M W value :=
  fun s => (Ret (default VUndefined (heap s !! r)), s).

(** [r.name = x] *)
Definition assign {W} (r : ref) (name : string) (x : value) : M W unit :=
  fun s => (Ret tt, State (alter (set_field name x) r (heap s)) (world s)).

(** The platform under the store: the key-value backend ([AsyncStorage]),
    whose calls may reject, the clock and the random generator.
    [Math_random_toString36] is the string [Math.random().toString(36)]. *)
Class Platform (W : Type) := {
  AsyncStorage_getItem : string -> W -> outcome (option text) * W;
  AsyncStorage_setItem : string -> text -> W -> outcome unit * W;
  AsyncStorage_removeItem : string -> W -> outcome unit * W;
  Date_now : W -> Z * W;
  Math_random_toString36 : W -> string * W
}.

Section Store.

Context {W : Type} `{Platform W}.

#[local] Notation "'let!' x ':=' m 'in' k" := (bind m (fun x => k))
  (at level 10, x name, m at level 100, k at level 200).
#[local] Notation "m ';;;' k" := (bind m (fun _ => k))
  (at level 100, k at level 200, right associativity).

(** The calls of the platform, in the state of the store. *)
Definition lift {A} (f : W -> outcome A * W) : M W A :=
  fun s => let '(r, w) := f (world s) in (r, State (heap s) w).

Definition getItem (key : string) : M W (option text) :=
  lift (AsyncStorage_getItem key).

Definition setItem (key : string) (t : text) : M W unit :=
  lift (AsyncStorage_setItem key t).

Definition removeItem (key : string) : M W unit :=
  lift (AsyncStorage_removeItem key).

Definition now : M W Z :=
  lift (fun w => let '(t, w') := Date_now w in (Ret t, w')).

Definition random36 : M W string :=
  lift (fun w => let '(r, w') := Math_random_toString36 w in (Ret r, w')).

(** [JSON.parse], throwing. *)
Definition parse (t : text) : M W value :=
  match JSON_parse t with
  | Some v => ret v
  | None => throw (Error "SyntaxError")
  end.

(** The elements of an array. *)
Definition elements (v : value) : list value :=
  match v with VArr xs => xs | _ => [] end.

(** [(a, b) => b.createdAt - a.createdAt] *)
Definition byCreatedAtDesc (a b : value) : number :=
  number_sub (to_number (field b "createdAt")) (to_number (field a "createdAt")).

(** [e => e.id === id] *)
Definition hasId (id : value) (e : value) : bool :=
  strict_equal (field e "id") id.

(** [getEntries]: an absent key and an empty string give no entries;
    otherwise the string is parsed, validated and sorted, newest first. *)
Definition getEntries : M W (list value) :=
  try_catch
    (let! entriesString := getItem ENTRIES in
     match entriesString with
     | None | Some Blank => ret []
     | Some t =>
         let! parsedData := parse t in
         if negb (validateEntries parsedData) then ret []
         else ret (sort byCreatedAtDesc (elements parsedData))
     end)
    (fun error => ret []).

(** [saveEntry]: [entry] is the object of the caller, read again at each
    use, since the collision branch assigns its [id]. *)
Definition saveEntry (entry : ref) : M W bool :=
  try_catch
    (let! e := deref entry in
     (if negb (validateEntry e) then throw (Error "Invalid entry data structure")
      else ret tt);;;
     let! existingEntries := getEntries in
     let! e := deref entry in
     (if existsb (hasId (field e "id")) existingEntries then
        let! t := now in
        let! r := random36 in
        assign entry "id"
          (VStr ("entry_" +:+ toString36 t +:+ "_" +:+ substr 2 9 r))
      else ret tt);;;
     let! e := deref entry in
     let updatedEntries := existingEntries ++ [e] in
     setItem ENTRIES (JSON_stringify (VArr updatedEntries));;;
     let! currentEntries := getEntries in
     let! e := deref entry in
     let wasSaved := existsb (hasId (field e "id")) currentEntries in
     if negb wasSaved then ret false else ret true)
    (fun error => ret false).

(** [getEntryById]: [entry || null]. *)
Definition getEntryById (id : value) : M W value :=
  try_catch
    (let! entries := getEntries in
     let entry := find (hasId id) entries in
     ret (if falsy entry then VNull else entry))
    (fun error => ret VNull).

(** [removeEntry]: the guard on [id] is a test at run time, so [id] is any
    value. *)
Definition removeEntry (id : value) : M W bool :=
  try_catch
    ((if falsy id || negb (String.eqb (typeof id) "string")
      then throw (Error "Invalid entry ID") else ret tt);;;
     let! existingEntries := getEntries in
     let entryExists := existsb (hasId id) existingEntries in
     if negb entryExists then ret false
     else
       let updatedEntries := filter (fun e => negb (hasId id e) = true) existingEntries in
       setItem ENTRIES (JSON_stringify (VArr updatedEntries));;;
       let! currentEntries := getEntries in
       let wasRemoved := negb (existsb (hasId id) currentEntries) in
       if negb wasRemoved then ret false else ret true)
    (fun error => ret false).

(** [updateEntry]: the element at [entryIndex] is replaced in place. *)
Definition updateEntry (updatedEntry : ref) : M W bool :=
  try_catch
    (let! u := deref updatedEntry in
     (if negb (validateEntry u) then throw (Error "Invalid entry data structure")
      else ret tt);;;
     let! existingEntries := getEntries in
     let! u := deref updatedEntry in
     let entryIndex := findIndex (hasId (field u "id")) existingEntries in
     if entryIndex =? -1 then ret false
     else
       let! u := deref updatedEntry in
       let existingEntries := <[Z.to_nat entryIndex := u]> existingEntries in
       setItem ENTRIES (JSON_stringify (VArr existingEntries));;;
       let! currentEntries := getEntries in
       let! u := deref updatedEntry in
       let updatedInStorage :=
         existsb (fun e => strict_equal (field e "id") (field u "id")
                           && strict_equal (field e "createdAt") (field u "createdAt"))
                 currentEntries in
       if negb updatedInStorage then ret false else ret true)
    (fun error => ret false).

(** [clearAllEntries] *)
Definition clearAllEntries : M W bool :=
  try_catch
    (removeItem ENTRIES;;;
     let! currentEntries := getEntries in
     if 0 <? Z.of_nat (length currentEntries) then ret false else ret true)
    (fun error => ret false).

(** [getEntryCount] *)
Definition getEntryCount : M W Z :=
  try_catch
    (let! entries := getEntries in
     ret (Z.of_nat (length entries)))
    (fun error => ret 0).

End Store.

(** ** A backend that keeps what it is given

    The device the properties of the store are stated on: the backend is a
    map from keys to strings that never rejects a call, [writes] counts its
    [setItem] and [removeItem] calls, [clock] and [dice] hold what
    [Date.now()] and [Math.random().toString(36)] will return from now
    on. *)

Record device := Device {
  disk : gmap string text;
  writes : nat;
  clock : nat -> Z;
  dice : nat -> string
}.

(** [setItem], [removeItem] and the two draws, on the device. *)
Definition write (key : string) (t : text) (d : device) : device :=
  Device (<[key := t]> (disk d)) (S (writes d)) (clock d) (dice d).

Definition erase (key : string) (d : device) : device :=
  Device (delete key (disk d)) (S (writes d)) (clock d) (dice d).

Definition tick (d : device) : device :=
  Device (disk d) (writes d) (fun n => clock d (S n)) (dice d).

Definition roll (d : device) : device :=
  Device (disk d) (writes d) (clock d) (fun n => dice d (S n)).

#[export] Instance device_platform : Platform device := {
  AsyncStorage_getItem key d := (Ret (disk d !! key), d);
  AsyncStorage_setItem key t d := (Ret tt, write key t d);
  AsyncStorage_removeItem key d := (Ret tt, erase key d);
  Date_now d := (clock d O, tick d);
  Math_random_toString36 d := (dice d O, roll d)
}.

(** The entries a read of the backend holds: the elements of the array
    when the read returns a JSON text of valid entries, none otherwise. *)
Definition decoded (read : outcome (option text)) : list value :=
  match read with
  | Ret (Some t) =>
      match JSON_parse t with
      | Some v => if validateEntries v then elements v else []
      | None => []
      end
  | _ => []
  end.

(** The stored collection: what [getEntries] returns on the device. *)
Definition collection (d : device) : list value :=
  sort byCreatedAtDesc (decoded (Ret (disk d !! ENTRIES))).

(** The ids of the entries of a list. *)
Definition ids (xs : list value) : list value :=
  map (fun e => field e "id") xs.

(** The id [saveEntry] gives to a colliding entry on the device. *)
Definition regenerated (d : device) : value :=
  VStr ("entry_" +:+ toString36 (clock d O) +:+ "_" +:+ substr 2 9 (dice d O)).

(** Running an operation for its result and for its final state. *)
Definition result {W A} (m : M W A) (s : state W) : outcome A := (m s).1.
Definition after {W A} (m : M W A) (s : state W) : state W := (m s).2.

(** A new device: nothing stored. *)
Definition fresh (c : nat -> Z) (r : nat -> string) : device :=
  Device ∅ O c r.

(** An entry as a record of properties. *)
Definition object (props : list (string * value)) : value :=
  VObj (list_to_map props).

Definition entry_a : value :=
  object [ ("id", VStr "a"); ("imageUri", VStr "u"); ("address", VStr "addr");
           ("latitude", VNum (Fin 1)); ("longitude", VNum (Fin 2));
           ("createdAt", VNum (Fin 1000)) ].

Definition entry_a2 : value :=
  object [ ("id", VStr "a"); ("imageUri", VStr "u2"); ("address", VStr "addr2");
           ("latitude", VNum (Fin 3)); ("longitude", VNum (Fin 4));
           ("createdAt", VNum (Fin 2000)) ].

(** The scenario of the specification: two saves under one id. *)
Definition scenario_start : state device :=
  State (<[1%nat := entry_a]> (<[2%nat := entry_a2]> ∅))
        (fresh (fun _ => 1000) (fun _ => "0.k2j4h5g6f7d8")).

(** ** Notions the properties are stated with *)

(** The depth of nesting, to reach the elements of arrays and the
    properties of objects by induction. *)
Fixpoint depth (v : value) : nat :=
  match v with
  | VArr xs => S (foldr (fun x acc => Nat.max (depth x) acc) O xs)
  | VObj props => S (map_fold (fun _ x acc => Nat.max (depth x) acc) O props)
  | _ => O
  end.

(** What an array element becomes, and what a property reads as, after a
    JSON round trip. *)
Definition reread_element (x : value) : value := default VNull (reread x).
Definition reread_field (x : value) : value := default VUndefined (reread x).

(** The three required numbers of an entry are finite. *)
Definition finiteNumbers (e : value) : bool :=
  forallb (fun name => match field e name with VNum n => finite n | _ => true end)
          ["latitude"; "longitude"; "createdAt"].

(** [x <= y] on numbers; [NaN] compares with nothing. *)
Definition number_le (x y : number) : Prop :=
  match x, y with
  | Fin a, Fin b => a <= b
  | NegInf, (Fin _ | NegInf | PosInf) => True
  | (Fin _ | PosInf), PosInf => True
  | _, _ => False
  end.

(** [a] is at least as new as [b]: both carry a number as [createdAt],
    and that of [a] is the greater or the same.  An infinity, which
    [JSON.parse] returns for a literal beyond the range of a double, is a
    number like the others. *)
Definition createdAt_desc (a b : value) : Prop :=
  exists x y, field a "createdAt" = VNum x
              /\ field b "createdAt" = VNum y /\ number_le y x.

(** The stored collection is settled: a JSON round trip leaves it as it
    is, that is, it holds no infinity, which [JSON.stringify] would write
    as [null].  The collection of a new device is settled, and so is every
    collection that the store has written (lemmas [settled_fresh] and
    [settled_write]). *)
Definition settled (d : device) : Prop :=
  map reread_element (collection d) = collection d.

(** An entry whose [createdAt] is [NaN]: a number to [typeof], [null] to
    [JSON.stringify]. *)
Definition entry_nan : value :=
  object [ ("id", VStr "n"); ("imageUri", VStr "u"); ("address", VStr "addr");
           ("latitude", VNum (Fin 1)); ("longitude", VNum (Fin 2));
           ("createdAt", VNum NaN) ].

Definition nan_start : state device :=
  State (<[1%nat := entry_nan]> ∅)
        (fresh (fun _ => 1000) (fun _ => "0.k2j4h5g6f7d8")).

(** The array under the entries key, as [JSON.parse] returns it. *)
Definition persisted (d : device) : list value :=
  match disk d !! ENTRIES with
  | Some t => match JSON_parse t with Some v => elements v | None => [] end
  | None => []
  end.

(** A sequence of [saveEntry] calls, on objects the caller holds. *)
Fixpoint saveAll (entries : list ref) (s : state device) : state device :=
  match entries with
  | [] => s
  | entry :: entries' => saveAll entries' (after (saveEntry entry) s)
  end.

(** [saveEntry] finds the id of the entry in the collection. *)
Definition collides (s : state device) (entry : ref) : bool :=
  let e := default VUndefined (heap s !! entry) in
  validateEntry e && existsb (hasId (field e "id")) (collection (world s)).

(** Along a sequence of [saveEntry] calls, each id regenerated for a
    collision is new to the collection of that moment. *)
Fixpoint regeneratedFresh (entries : list ref) (s : state device) : Prop :=
  match entries with
  | [] => True
  | entry :: entries' =>
      (collides s entry = true ->
       regenerated (world s) ∉ ids (collection (world s)))
      /\ regeneratedFresh entries' (after (saveEntry entry) s)
  end.

(** An entry under the id that the clock and the generator of
    [clash_start] lead to, and a second one under the same id. *)
Definition entry_g : value :=
  object [ ("id", VStr "entry_rs_k2j4h5g6f"); ("imageUri", VStr "u0");
           ("address", VStr "addr0"); ("latitude", VNum (Fin 5));
           ("longitude", VNum (Fin 6)); ("createdAt", VNum (Fin 500)) ].

Definition entry_g2 : value :=
  object [ ("id", VStr "entry_rs_k2j4h5g6f"); ("imageUri", VStr "u3");
           ("address", VStr "addr3"); ("latitude", VNum (Fin 7));
           ("longitude", VNum (Fin 8)); ("createdAt", VNum (Fin 3000)) ].

Definition clash_start : state device :=
  State (<[1%nat := entry_g]> (<[2%nat := entry_a]> (<[3%nat := entry_a2]>
           (<[4%nat := entry_g2]> ∅))))
        (fresh (fun _ => 1000) (fun _ => "0.k2j4h5g6f7d8")).

(** A decoded entry whose [weather] is [null]. *)
Definition entry_weather_null : value :=
  object [ ("id", VStr "a"); ("imageUri", VStr "u"); ("address", VStr "addr");
           ("latitude", VNum (Fin 1)); ("longitude", VNum (Fin 2));
           ("createdAt", VNum (Fin 1000)); ("weather", VNull) ].

(** A decoded entry whose [weather] is an array. *)
Definition entry_weather_array : value :=
  object [ ("id", VStr "a"); ("imageUri", VStr "u"); ("address", VStr "addr");
           ("latitude", VNum (Fin 1)); ("longitude", VNum (Fin 2));
           ("createdAt", VNum (Fin 1000)); ("weather", VArr [VStr "sunny"]) ].

(** A backend out of order: every call rejects. *)
Definition outage : Platform unit := {|
  AsyncStorage_getItem key w := (Throw (Error "I/O error"), w);
  AsyncStorage_setItem key t w := (Throw (Error "I/O error"), w);
  AsyncStorage_removeItem key w := (Throw (Error "I/O error"), w);
  Date_now w := (0, w);
  Math_random_toString36 w := ("0", w)
|}.

(** A backend that acknowledges a write and drops it. *)
Definition forgetful : Platform device := {|
  AsyncStorage_getItem key d := (Ret (disk d !! key), d);
  AsyncStorage_setItem key t d := (Ret tt, d);
  AsyncStorage_removeItem key d := (Ret tt, d);
  Date_now d := (clock d O, tick d);
  Math_random_toString36 d := (dice d O, roll d)
|}.

(** A device whose entries key holds a string that is not JSON, and one
    whose entries key holds the text [[{"id": 123}]]. *)
Definition garbled_start : state device :=
  State ∅ (Device {[ ENTRIES := Garbled ]} O (fun _ => 0) (fun _ => "0")).

Definition invalid_start : state device :=
  State ∅ (Device {[ ENTRIES := JSON_stringify (VArr [object [("id", VNum (Fin 123))]]) ]}
                  O (fun _ => 0) (fun _ => "0")).

(** A backend some of whose reads reject: the device, with a script for
    the reads to come.  Each read takes the head of the script and rejects
    when it is [true]; once the script is over every read works. *)
Definition flaky : Platform (list bool * device) := {|
  AsyncStorage_getItem key w :=
    match w.1 with
    | [] => (Ret (disk w.2 !! key), w)
    | false :: script => (Ret (disk w.2 !! key), (script, w.2))
    | true :: script => (Throw (Error "I/O error"), (script, w.2))
    end;
  AsyncStorage_setItem key t w := (Ret tt, (w.1, write key t w.2));
  AsyncStorage_removeItem key w := (Ret tt, (w.1, erase key w.2));
  Date_now w := (clock w.2 O, (w.1, tick w.2));
  Math_random_toString36 w := (dice w.2 O, (w.1, roll w.2))
|}.

(** One entry stored and an entry to save, with the next read about to
    reject; and the same with the read after the next about to reject. *)
Definition flaky_start : state (list bool * device) :=
  State (<[2%nat := entry_a]> ∅)
        ([true], Device {[ ENTRIES := JSON_stringify (VArr [entry_g]) ]} O
                        (fun _ => 1000) (fun _ => "0.k2j4h5g6f7d8")).

Definition flaky_later_start : state (list bool * device) :=
  State (heap flaky_start) ([false; true], (world flaky_start).2).

(** An entry with finite numbers of its own and a [NaN] inside its
    [weather]. *)
Definition entry_weather_nan : value :=
  object [ ("id", VStr "w"); ("imageUri", VStr "u"); ("address", VStr "addr");
           ("latitude", VNum (Fin 1)); ("longitude", VNum (Fin 2));
           ("createdAt", VNum (Fin 1000));
           ("weather", object [("temperature", VNum NaN)]) ].

Definition weather_nan_start : state device :=
  State (<[1%nat := entry_weather_nan]> ∅)
        (fresh (fun _ => 1000) (fun _ => "0.k2j4h5g6f7d8")).

(** The forgetful backend with [entry_a] stored, and a second entry under
    the same id to save. *)
Definition forgetful_start : state device :=
  State (<[2%nat := entry_a2]> ∅)
        (Device {[ ENTRIES := JSON_stringify (VArr [entry_a]) ]} O
                (fun _ => 1000) (fun _ => "0.k2j4h5g6f7d8")).

(** The other keys the application keeps in the same backend
    ([StorageKeys]). *)
Definition THEME : string := "@travel_diary_theme".
Definition APP_OPENED_COUNT : string := "@travel_diary_opened_count".
Definition FIRST_LAUNCH : string := "@travel_diary_first_launch".

(** A device with an entry stored and the three other keys set (the theme
    is a bare word, not a JSON text). *)
Definition settings_start : state device :=
  State (<[2%nat := entry_a2]> ∅)
        (Device (<[ENTRIES := JSON_stringify (VArr [entry_a])]>
                   (<[THEME := Garbled]>
                      (<[APP_OPENED_COUNT := JSON_stringify (VNum (Fin 7))]>
                         (<[FIRST_LAUNCH := JSON_stringify (VBool false)]> ∅))))
                O (fun _ => 1000) (fun _ => "0.k2j4h5g6f7d8")).

(** An operation keeps a relation [R] between the device before and the
    device after it. *)
Definition keeps {A} (R : device -> device -> Prop) (m : M device A) : Prop :=
  forall s, R (world s) (world (after m s)).

(** Two devices hold the same strings under every key but the entries
    key. *)
Definition same_elsewhere (d d' : device) : Prop :=
  forall key, key <> ENTRIES -> disk d' !! key = disk d !! key.

(** An entry as [getEntries] returns it: an object whose six required
    fields are strings and numbers other than [NaN]. *)
Definition wellFormed (x : value) : Prop :=
  (exists props, x = VObj props)
  /\ (exists id, field x "id" = VStr id)
  /\ (exists uri, field x "imageUri" = VStr uri)
  /\ (exists a, field x "address" = VStr a)
  /\ (exists n, field x "latitude" = VNum n /\ n <> NaN)
  /\ (exists n, field x "longitude" = VNum n /\ n <> NaN)
  /\ (exists n, field x "createdAt" = VNum n /\ n <> NaN).

(** A device whose entries key holds a text not written by the store: one
    entry, under the id "y", whose [createdAt] is the literal [1e999]; and
    a device that holds this entry and [entry_a]. *)
Definition overflow_entry : json :=
  JObject (list_to_map
    [ ("id", JString "y"); ("imageUri", JString "u"); ("address", JString "addr");
      ("latitude", JNumber 1); ("longitude", JNumber 2);
      ("createdAt", JOverflow false) ]).

Definition overflow_start : state device :=
  State (<[1%nat := entry_a]> ∅)
        (Device {[ ENTRIES := Json (JArray [overflow_entry]) ]} O
                (fun _ => 1000) (fun _ => "0.k2j4h5g6f7d8")).

Definition overflow_pair_start : state device :=
  State ∅
        (Device {[ ENTRIES := Json (JArray [ overflow_entry;
                                             default JNull (json_stringify entry_a) ]) ]}
                O (fun _ => 1000) (fun _ => "0.k2j4h5g6f7d8")).

(** An entry under the empty id. *)
Definition entry_noid : value :=
  object [ ("id", VStr ""); ("imageUri", VStr "u"); ("address", VStr "addr");
           ("latitude", VNum (Fin 1)); ("longitude", VNum (Fin 2));
           ("createdAt", VNum (Fin 1000)) ].

Definition noid_start : state device :=
  State (<[1%nat := entry_noid]> ∅)
        (fresh (fun _ => 1000) (fun _ => "0.k2j4h5g6f7d8")).

(** ** The home screen

    The state of the home screen that its handlers read and set: the
    entries shown, the three flags, the entry selected and the alerts
    shown so far (title and message).  A handler runs to its end and the
    state it has set is the state of the next render; animations are not
    modelled. *)
Record homeScreen := HomeScreen {
  entries : list value;
  loading : bool;
  refreshing : bool;
  modalVisible : bool;
  selectedEntry : value;
  alerts : list (string * string)
}.

Section HomeScreen.

Context {W : Type} `{Platform W}.

(** [loadEntries]: the [catch] shows an alert, the [finally] resets the two
    flags. *)
Definition loadEntries (ui : homeScreen) : M W homeScreen :=
  let ui := HomeScreen (entries ui) true (refreshing ui) (modalVisible ui)
                       (selectedEntry ui) (alerts ui) in
  bind
    (try_catch
       (bind getEntries (fun loadedEntries =>
          ret (HomeScreen loadedEntries (loading ui) (refreshing ui)
                          (modalVisible ui) (selectedEntry ui) (alerts ui))))
       (fun error =>
          ret (HomeScreen (entries ui) (loading ui) (refreshing ui)
                          (modalVisible ui) (selectedEntry ui)
                          (alerts ui ++ [("Error", "Failed to load travel entries")]))))
    (fun ui =>
       ret (HomeScreen (entries ui) false false (modalVisible ui)
                       (selectedEntry ui) (alerts ui))).

(** The Delete button of the confirmation that [handleRemoveEntry] shows:
    its [onPress]. *)
Definition confirmDelete (id : value) (ui : homeScreen) : M W homeScreen :=
  let ui := HomeScreen (entries ui) (loading ui) true (modalVisible ui)
                       (selectedEntry ui) (alerts ui) in
  bind (removeEntry id) (fun success =>
    let ui :=
      if success then
        let updatedEntries :=
          filter (fun entry => negb (strict_equal (field entry "id") id) = true)
                 (entries ui) in
        HomeScreen updatedEntries (loading ui) (refreshing ui) false VNull (alerts ui)
      else
        HomeScreen (entries ui) (loading ui) (refreshing ui) (modalVisible ui)
                   (selectedEntry ui) (alerts ui ++ [("Error", "Failed to delete entry")])
    in
    ret (HomeScreen (entries ui) (loading ui) false (modalVisible ui)
                    (selectedEntry ui) (alerts ui))).

End HomeScreen.

(** A home screen just opened. *)
Definition home_start : homeScreen := HomeScreen [] true false false VNull [].

(** ** The screen that adds an entry

    The state of the form, and the handlers that build an entry from it
    and hand it to the store.  [trim] stands for [String.prototype.trim],
    whose set of white space is that of the platform; the properties hold
    for any such function. *)
Record form := Form {
  imageUri : option string;
  address : string;
  location : option (number * number);
  title : string;
  notes : string
}.

(** How [saveTravelEntry] ends: the form is refused with an alert, the
    entry is saved (the notification and the navigation that follow are not
    modelled), or the [catch] shows the message of the error. *)
Inductive submission :=
| Refused (alert : string * string)
| Saved
| Failed (message : string).

(** [const newEntry = ...]: a new object, under a reference that is not in
    use. *)
Definition alloc {W} (v : value) : M W nat :=
  fun s =>
    let r := stdpp.base.fresh (dom (heap s)) in
    (Ret r, State (<[r := v]> (heap s)) (world s)).

Section AddEntryScreen.

Context {W : Type} `{Platform W}.
Variable trim : string -> string.

(** [generateId] *)
Definition generateId : M W string :=
  bind now (fun t =>
  bind random36 (fun r =>
  ret ("entry_" +:+ toString36 t +:+ "_" +:+ substr 2 9 r))).

(** [validateForm]: [None] when it returns [true], and the alert it shows
    when it returns [false]. *)
Definition validateForm (f : form) : option (string * string) :=
  if match imageUri f with None | Some "" => true | Some _ => false end
  then Some ("Missing Image", "Please take a picture first")
  else if String.eqb (address f) ""
  then Some ("Missing Address", "Waiting for address information")
  else if match location f with None => true | Some _ => false end
  then Some ("Missing Location", "Waiting for location data")
  else if String.eqb (trim (title f)) ""
  then Some ("Missing Title", "Please enter a title for this memory")
  else None.

(** [createTravelEntry]: the properties are evaluated in the order of the
    literal; [location!.latitude] throws a TypeError when [location] is
    [null]. *)
Definition createTravelEntry (f : form) : M W value :=
  bind generateId (fun id =>
  match location f with
  | None => throw (Error "TypeError")
  | Some (latitude, longitude) =>
      bind now (fun createdAt =>
      ret (object
             [ ("id", VStr id);
               ("imageUri", match imageUri f with Some u => VStr u | None => VNull end);
               ("address", VStr (address f));
               ("latitude", VNum latitude);
               ("longitude", VNum longitude);
               ("createdAt", VNum (Fin createdAt));
               ("title", VStr (trim (title f)));
               ("notes", if String.eqb (trim (notes f)) "" then VUndefined
                         else VStr (trim (notes f))) ]))
  end).

(** [saveTravelEntry] *)
Definition saveTravelEntry (f : form) : M W submission :=
  try_catch
    (match validateForm f with
     | Some alert => ret (Refused alert)
     | None =>
         bind (createTravelEntry f) (fun e =>
         bind (alloc e) (fun newEntry =>
         bind (saveEntry newEntry) (fun saved =>
         if negb saved then throw (Error "Save operation failed")
         else ret Saved)))
     end)
    (fun error => let 'Error message := error in ret (Failed message)).

End AddEntryScreen.

(** [trim] on strings whose only white space is the space character. *)
Fixpoint dropSpaces (s : string) : string :=
  match s with
  | String " "%char s' => dropSpaces s'
  | _ => s
  end.

Definition trimSpaces (s : string) : string :=
  String.rev (dropSpaces (String.rev (dropSpaces s))).

(** A form filled in, with blank notes. *)
Definition form_filled : form :=
  Form (Some "file:///photo.jpg") "Rizal Park, Manila"
       (Some (Fin 14, Fin 120)) "  Sunset " "   ".

(** ** The address of a position

    An address as the geocoder of the platform returns it ([null] or a
    string in each field), and the geocoder itself, which may reject. *)
Record geocodedAddress := GeocodedAddress {
  name : option string;
  street : option string;
  district : option string;
  city : option string;
  region : option string;
  country : option string
}.

Class Geocoder (W : Type) := {
  Location_reverseGeocodeAsync :
    number -> number -> W -> outcome (list geocodedAddress) * W
}.

(** [Boolean(x)] for a string or [null]. *)
Definition present (x : option string) : bool :=
  match x with
  | None | Some "" => false
  | Some _ => true
  end.

(** The strings among [parts] that [filter(Boolean)] keeps. *)
Definition filterBoolean (parts : list (option string)) : list string :=
  omap (fun x => if present x then x else None) parts.

(** [formatAddress] *)
Definition formatAddress (addressObj : geocodedAddress) : string :=
  let parts :=
    filterBoolean [ name addressObj; street addressObj; district addressObj;
                    city addressObj; region addressObj; country addressObj ] in
  String.concat ", " parts.

(** [reverseGeocode]: an empty response throws inside the [try]; the
    [catch] returns the fallback. *)
Definition reverseGeocode {W} `{Geocoder W} (latitude longitude : number) : M W string :=
  try_catch
    (bind (lift (Location_reverseGeocodeAsync latitude longitude))
       (fun addressResponse =>
          match addressResponse with
          | first :: _ => ret (formatAddress first)
          | [] => throw (Error "No address found for coordinates")
          end))
    (fun error => ret "Address unavailable").

(** A geocoder that answers with a fixed list, and one that rejects. *)
Definition geocoder_fixed (answer : list geocodedAddress) : Geocoder unit :=
  {| Location_reverseGeocodeAsync lat lon w := (Ret answer, w) |}.

Definition geocoder_down : Geocoder unit :=
  {| Location_reverseGeocodeAsync lat lon w := (Throw (Error "network"), w) |}.

Definition address_manila : geocodedAddress :=
  GeocodedAddress (Some "Rizal Park") (Some "") None (Some "Manila") None
                  (Some "Philippines").

(** ** Permissions

    The status of a permission, and the calls of the platform that read it
    and ask for it; each may reject.  [Alert_alert] shows an alert with a
    title, a message and the labels of its buttons. *)
Inductive PermissionStatus := granted | denied | undetermined.

Class PermissionsPlatform (W : Type) := {
  ImagePicker_getCameraPermissionsAsync : W -> outcome PermissionStatus * W;
  ImagePicker_requestCameraPermissionsAsync : W -> outcome PermissionStatus * W;
  Location_getForegroundPermissionsAsync : W -> outcome PermissionStatus * W;
  Location_requestForegroundPermissionsAsync : W -> outcome PermissionStatus * W;
  Notifications_getPermissionsAsync : W -> outcome PermissionStatus * W;
  Notifications_requestPermissionsAsync : W -> outcome PermissionStatus * W;
  MediaLibrary_getPermissionsAsync : W -> outcome PermissionStatus * W;
  MediaLibrary_requestPermissionsAsync : W -> outcome PermissionStatus * W;
  Alert_alert : string -> string -> list string -> W -> W
}.

Inductive permissionType := camera | location' | notification | mediaLibrary.

Section Permissions.

Context {W : Type} `{PermissionsPlatform W}.

(** [currentStatus !== 'granted'] *)
Definition notGranted (status : PermissionStatus) : bool :=
  match status with granted => false | _ => true end.

Definition requestCameraPermission : M W PermissionStatus :=
  bind (lift ImagePicker_getCameraPermissionsAsync) (fun currentStatus =>
    if notGranted currentStatus
    then bind (lift ImagePicker_requestCameraPermissionsAsync) (fun status => ret status)
    else ret currentStatus).

Definition requestLocationPermission : M W PermissionStatus :=
  bind (lift Location_getForegroundPermissionsAsync) (fun currentStatus =>
    if notGranted currentStatus
    then bind (lift Location_requestForegroundPermissionsAsync) (fun status => ret status)
    else ret currentStatus).

Definition requestNotificationPermission : M W PermissionStatus :=
  bind (lift Notifications_getPermissionsAsync) (fun currentStatus =>
    if notGranted currentStatus
    then bind (lift Notifications_requestPermissionsAsync) (fun status => ret status)
    else ret currentStatus).

Definition requestMediaLibraryPermission : M W PermissionStatus :=
  bind (lift MediaLibrary_getPermissionsAsync) (fun currentStatus =>
    if notGranted currentStatus
    then bind (lift MediaLibrary_requestPermissionsAsync) (fun status => ret status)
    else ret currentStatus).

(** [ensurePermission]: the [switch], then the alert when the status is
    not granted.  What the buttons of the alert do when pressed is not
    modelled. *)
Definition ensurePermission (permissionType : permissionType)
    (title message : string) : M W bool :=
  bind
    (match permissionType with
     | camera => requestCameraPermission
     | location' => requestLocationPermission
     | notification => requestNotificationPermission
     | mediaLibrary => requestMediaLibraryPermission
     end)
    (fun status =>
       if notGranted status
       then bind (lift (fun w => (Ret tt, Alert_alert title message
                                            ["Cancel"; "Open Settings"] w)))
                 (fun _ => ret false)
       else ret true).

(** The function that the [switch] of [ensurePermission] selects. *)
Definition requestFor (permissionType : permissionType) : M W PermissionStatus :=
  match permissionType with
  | camera => requestCameraPermission
  | location' => requestLocationPermission
  | notification => requestNotificationPermission
  | mediaLibrary => requestMediaLibraryPermission
  end.

(** The two calls of the platform behind a permission. *)
Definition getOf (permissionType : permissionType) : W -> outcome PermissionStatus * W :=
  match permissionType with
  | camera => ImagePicker_getCameraPermissionsAsync
  | location' => Location_getForegroundPermissionsAsync
  | notification => Notifications_getPermissionsAsync
  | mediaLibrary => MediaLibrary_getPermissionsAsync
  end.

Definition requestOf (permissionType : permissionType) : W -> outcome PermissionStatus * W :=
  match permissionType with
  | camera => ImagePicker_requestCameraPermissionsAsync
  | location' => Location_requestForegroundPermissionsAsync
  | notification => Notifications_requestPermissionsAsync
  | mediaLibrary => MediaLibrary_requestPermissionsAsync
  end.

End Permissions.

(** A phone: the status of each permission, what the user will answer to
    each prompt, the prompts and the alerts shown so far. *)
Record phone := Phone {
  statusOf : permissionType -> PermissionStatus;
  answerOf : permissionType -> PermissionStatus;
  prompts : list permissionType;
  shown : list (string * string)
}.

Definition phone_get (p : permissionType) (w : phone) : outcome PermissionStatus * phone :=
  (Ret (statusOf w p), w).

Definition phone_request (p : permissionType) (w : phone)
  : outcome PermissionStatus * phone :=
  (Ret (answerOf w p),
   Phone (fun q => match p, q with
                   | camera, camera | location', location'
                   | notification, notification | mediaLibrary, mediaLibrary => answerOf w p
                   | _, _ => statusOf w q
                   end)
         (answerOf w) (prompts w ++ [p]) (shown w)).

Definition phone_platform : PermissionsPlatform phone := {|
  ImagePicker_getCameraPermissionsAsync := phone_get camera;
  ImagePicker_requestCameraPermissionsAsync := phone_request camera;
  Location_getForegroundPermissionsAsync := phone_get location';
  Location_requestForegroundPermissionsAsync := phone_request location';
  Notifications_getPermissionsAsync := phone_get notification;
  Notifications_requestPermissionsAsync := phone_request notification;
  MediaLibrary_getPermissionsAsync := phone_get mediaLibrary;
  MediaLibrary_requestPermissionsAsync := phone_request mediaLibrary;
  Alert_alert title message buttons w :=
    Phone (statusOf w) (answerOf w) (prompts w) (shown w ++ [(title, message)])
|}.

(** A phone on which the camera is granted and the user refuses the
    location. *)
Definition phone_start : state phone :=
  State ∅ (Phone (fun p => match p with camera => granted | _ => undetermined end)
                 (fun _ => denied) [] []).

(** The property names that [validateEntry] reads. *)
Definition knownFields : list string :=
  [ "id"; "imageUri"; "address"; "latitude"; "longitude"; "createdAt";
    "title"; "notes"; "tags"; "weather" ].

(** * Properties *)

(** ** The model at work *)

Example toString36_1000 : toString36 1000 = "rs".
Proof. reflexivity. Qed.

Example substr_random : substr 2 9 "0.k2j4h5g6f7d8" = "k2j4h5g6f".
Proof. reflexivity. Qed.

Example substr_zero : substr 2 9 "0" = "".
Proof. reflexivity. Qed.

Example validateEntry_entry_a : validateEntry entry_a = true.
Proof. reflexivity. Qed.

Example scenario_first_save : result (saveEntry 1%nat) scenario_start = Ret true.
Proof. vm_compute. reflexivity. Qed.

Example scenario_second_save :
  let s1 := after (saveEntry 1%nat) scenario_start in
  let s2 := after (saveEntry 2%nat) s1 in
  result (saveEntry 2%nat) s1 = Ret true
  /\ ids (collection (world s2)) = [VStr "entry_rs_k2j4h5g6f"; VStr "a"]
  /\ result getEntryCount s2 = Ret 2.
Proof. vm_compute. repeat split; reflexivity. Qed.

(** ** Facts about values *)

Section ValueInduction.

Lemma depth_element (xs : list value) (x : value) :
  x ∈ xs -> (depth x < depth (VArr xs))%nat.
Proof. simpl. induction 1; simpl; lia. Qed.

Lemma depth_property (props : gmap string value) (k : string) (x : value) :
  props !! k = Some x -> (depth x < depth (VObj props))%nat.
Proof.
  simpl. revert k x.
  induction props as [|i y props Hi Hfirst IH] using map_first_key_ind;
    intros k x Hk.
  - by rewrite lookup_empty in Hk.
  - rewrite map_fold_insert_first_key by done.
    destruct (decide (i = k)) as [->|Hne].
    + rewrite lookup_insert_eq in Hk. injection Hk as ->. lia.
    + rewrite lookup_insert_ne in Hk by done. specialize (IH _ _ Hk). lia.
Qed.

Lemma value_nested_ind (P : value -> Prop) :
  P VUndefined -> P VNull -> (forall b, P (VBool b)) -> (forall n, P (VNum n)) ->
  (forall s, P (VStr s)) ->
  (forall xs, Forall P xs -> P (VArr xs)) ->
  (forall props : gmap string value, map_Forall (fun _ => P) props -> P (VObj props)) ->
  forall v, P v.
Proof.
  intros Hu Hn Hb Hnum Hs Ha Ho v.
  remember (depth v) as d eqn:Hd. revert v Hd.
  induction d as [d IH] using lt_wf_ind. intros v ->.
  destruct v; auto.
  - apply Ha, Forall_forall. intros x Hx.
    eapply IH; [|reflexivity]. by apply depth_element.
  - apply Ho. intros k x Hk.
    eapply IH; [|reflexivity]. by eapply depth_property.
Qed.

End ValueInduction.

Lemma reread_idempotent (v p : value) : reread v = Some p -> reread p = Some p.
Proof.
  revert p. induction v as [| |b|n|s|xs IH|props IH] using value_nested_ind;
    intros p Hp; simpl in Hp; try discriminate; injection Hp as <-; try reflexivity.
  - by destruct n.
  - simpl. f_equal. f_equal. rewrite map_map.
    apply map_ext_Forall. eapply Forall_impl; [exact IH|].
    intros x Hx. simpl. destruct (reread x) as [q|] eqn:Hq; simpl; [|done].
    by rewrite (Hx q).
  - simpl. f_equal. f_equal. apply map_eq. intros k.
    rewrite !lookup_omap. destruct (props !! k) as [x|] eqn:Hk; simpl; [|done].
    destruct (reread x) as [q|] eqn:Hq; simpl; [|done].
    exact (IH k x Hk q Hq).
Qed.

(** Writing a value and reading the text again. *)
Lemma json_round_trip (v : value) : json_parse <$> json_stringify v = reread v.
Proof.
  induction v as [| |b|n|s|xs IH|props IH] using value_nested_ind; try reflexivity.
  - by destruct n.
  - simpl. do 2 f_equal. rewrite map_map. apply map_ext_Forall.
    eapply Forall_impl; [exact IH|]. intros x Hx. simpl.
    rewrite <- Hx. by destruct (json_stringify x).
  - simpl. do 2 f_equal. apply map_eq. intros k.
    rewrite lookup_fmap, !lookup_omap.
    destruct (props !! k) as [x|] eqn:Hk; simpl; [|done].
    rewrite <- (IH k x Hk). by destruct (json_stringify x).
Qed.

Lemma JSON_round_trip (v : value) : JSON_parse (JSON_stringify v) = reread v.
Proof.
  rewrite <- json_round_trip. unfold JSON_stringify.
  by destruct (json_stringify v).
Qed.

(** [JSON.parse] returns no [NaN]. *)
Lemma json_parse_number (j : json) (n : number) : json_parse j = VNum n -> n <> NaN.
Proof. destruct j as [| | |[]| | |]; simpl; congruence. Qed.

Lemma field_reread (props : gmap string value) (k : string) :
  field (VObj (omap reread props)) k = reread_field (field (VObj props) k).
Proof.
  unfold field, reread_field. rewrite lookup_omap.
  by destruct (props !! k) as [x|].
Qed.

(** ** Facts about [sort], [find] and [findIndex] *)

Lemma sort_insert_Permutation c x xs : Permutation (sort_insert c x xs) (x :: xs).
Proof.
  induction xs as [|y ys IH]; simpl; [done|].
  destruct (positive_number (c x y)); [|done].
  rewrite IH. apply perm_swap.
Qed.

Lemma sort_Permutation c xs : Permutation (sort c xs) xs.
Proof.
  induction xs as [|x xs IH]; simpl; [done|].
  rewrite sort_insert_Permutation. by constructor.
Qed.

Lemma elem_of_sort c xs x : x ∈ sort c xs <-> x ∈ xs.
Proof. by rewrite (sort_Permutation c xs). Qed.

Lemma Forall_sort (P : value -> Prop) c xs : Forall P (sort c xs) <-> Forall P xs.
Proof. by rewrite (sort_Permutation c xs). Qed.

Lemma existsb_Permutation (p : value -> bool) xs ys :
  Permutation xs ys -> existsb p xs = existsb p ys.
Proof.
  induction 1; simpl; try congruence.
  - destruct (p x), (p y); reflexivity.
Qed.

Lemma existsb_sort p c xs : existsb p (sort c xs) = existsb p xs.
Proof. apply existsb_Permutation, sort_Permutation. Qed.

Lemma find_unique (p : value -> bool) xs (e : value) :
  e ∈ xs -> p e = true -> Forall (fun x => p x = true -> x = e) xs ->
  find p xs = e.
Proof.
  induction xs as [|x xs IH]; intros Hin Hp Hall.
  - by apply elem_of_nil in Hin.
  - simpl. inversion Hall as [|? ? Hx Hxs]; subst.
    destruct (p x) eqn:Hpx; [by apply Hx|].
    apply IH; [|done|done].
    apply elem_of_cons in Hin as [->|]; [congruence|done].
Qed.

Lemma findIndex_none (p : value -> bool) xs :
  existsb p xs = false -> findIndex p xs = -1.
Proof.
  induction xs as [|x xs IH]; simpl; [done|].
  destruct (p x); simpl; [done|]. intros Hxs. by rewrite IH.
Qed.

(** ** Facts about the validator *)

Lemma if_false_else (c r : bool) :
  (if c then false else r) = true <-> c = false /\ r = true.
Proof. destruct c; simpl; intuition congruence. Qed.

(** [validateEntry] returns [true] when none of its six tests fires. *)
Lemma validateEntry_true (e : value) :
  validateEntry e = true <->
    (falsy e || negb (String.eqb (typeof e) "object")) = false
    /\ forallb (fun f => String.eqb (typeof (field e f.1)) f.2) requiredFields = true
    /\ negb (strict_equal (field e "title") VUndefined)
       && negb (String.eqb (typeof (field e "title")) "string") = false
    /\ negb (strict_equal (field e "notes") VUndefined)
       && negb (String.eqb (typeof (field e "notes")) "string") = false
    /\ negb (strict_equal (field e "tags") VUndefined)
       && negb (isArray (field e "tags")) = false
    /\ negb (strict_equal (field e "weather") VUndefined)
       && negb (String.eqb (typeof (field e "weather")) "object") = false.
Proof.
  unfold validateEntry. rewrite !if_false_else, negb_false_iff. tauto.
Qed.

Lemma validateEntry_object (e : value) :
  validateEntry e = true -> exists props, e = VObj props.
Proof.
  intros [He [Hreq _]]%validateEntry_true.
  destruct e; try discriminate; eauto.
Qed.

Lemma validateEntry_id (e : value) :
  validateEntry e = true -> exists s, field e "id" = VStr s.
Proof.
  intros [_ [Hreq _]]%validateEntry_true. simpl in Hreq.
  destruct (field e "id"); try discriminate; eauto.
Qed.

Lemma validateEntry_createdAt (e : value) :
  validateEntry e = true -> exists n, field e "createdAt" = VNum n.
Proof.
  intros [_ [Hreq _]]%validateEntry_true. simpl in Hreq.
  rewrite !andb_true_iff in Hreq.
  destruct Hreq as (_ & _ & _ & _ & _ & H6 & _).
  destruct (field e "createdAt"); try discriminate. eauto.
Qed.

Lemma reread_field_string (v : value) :
  String.eqb (typeof v) "string" = true ->
  String.eqb (typeof (reread_field v)) "string" = true.
Proof. by destruct v. Qed.

Lemma reread_field_number (v : value) :
  String.eqb (typeof v) "number" = true ->
  match v with VNum n => finite n | _ => true end = true ->
  String.eqb (typeof (reread_field v)) "number" = true.
Proof. destruct v as [| | |n| | |]; try done. by destruct n. Qed.

Lemma reread_field_optional_string (v : value) :
  negb (strict_equal v VUndefined) && negb (String.eqb (typeof v) "string") = false ->
  negb (strict_equal (reread_field v) VUndefined)
  && negb (String.eqb (typeof (reread_field v)) "string") = false.
Proof. by destruct v. Qed.

Lemma reread_field_optional_array (v : value) :
  negb (strict_equal v VUndefined) && negb (isArray v) = false ->
  negb (strict_equal (reread_field v) VUndefined)
  && negb (isArray (reread_field v)) = false.
Proof. by destruct v. Qed.

Lemma reread_field_optional_object (v : value) :
  negb (strict_equal v VUndefined) && negb (String.eqb (typeof v) "object") = false ->
  negb (strict_equal (reread_field v) VUndefined)
  && negb (String.eqb (typeof (reread_field v)) "object") = false.
Proof. by destruct v. Qed.

(** A valid entry with finite numbers is valid again once written and
    read back. *)
Lemma validateEntry_reread (props : gmap string value) :
  validateEntry (VObj props) = true -> finiteNumbers (VObj props) = true ->
  validateEntry (VObj (omap reread props)) = true.
Proof.
  intros (_ & Hreq & Ht & Hn & Hg & Hw)%validateEntry_true Hfin.
  apply validateEntry_true. rewrite !field_reread.
  split_and!; [done| |by apply reread_field_optional_string
              |by apply reread_field_optional_string
              |by apply reread_field_optional_array
              |by apply reread_field_optional_object].
  unfold finiteNumbers in Hfin. cbn [forallb requiredFields fst snd] in *.
  rewrite !field_reread.
  rewrite !andb_true_iff in *.
  destruct Hreq as (H1 & H2 & H3 & H4 & H5 & H6 & _).
  destruct Hfin as (F4 & F5 & F6 & _).
  split_and!; auto using reread_field_string, reread_field_number.
Qed.

(** An entry that stays valid through a round trip had finite numbers. *)
Lemma validateEntry_reread_finite (props : gmap string value) :
  validateEntry (VObj (omap reread props)) = true -> finiteNumbers (VObj props) = true.
Proof.
  intros (_ & Hreq & _)%validateEntry_true.
  unfold finiteNumbers. cbn [forallb requiredFields fst snd] in *.
  rewrite !field_reread in Hreq. rewrite !andb_true_iff in *.
  destruct Hreq as (_ & _ & _ & H4 & H5 & H6 & _).
  split_and!; try done.
  - destruct (field (VObj props) "latitude") as [| | |[]| | |]; done.
  - destruct (field (VObj props) "longitude") as [| | |[]| | |]; done.
  - destruct (field (VObj props) "createdAt") as [| | |[]| | |]; done.
Qed.

(** ** Facts about [getEntries] *)

Section GetEntries.

Context {W : Type} `{Platform W}.

(** On every platform [getEntries] returns, sorted, the entries that its
    one read of the backend holds. *)
Lemma getEntries_read (s : state W) :
  getEntries s =
    (Ret (sort byCreatedAtDesc (decoded (AsyncStorage_getItem ENTRIES (world s)).1)),
     State (heap s) (AsyncStorage_getItem ENTRIES (world s)).2).
Proof.
  unfold getEntries, try_catch, bind, getItem, lift.
  destruct (AsyncStorage_getItem ENTRIES (world s)) as [[[t|]|e] w]; simpl; try done.
  destruct t as [| |j]; simpl; try done.
  unfold parse. simpl. by destruct (validateEntries (json_parse j)).
Qed.

End GetEntries.

Lemma decoded_valid (read : outcome (option text)) :
  Forall (fun x => validateEntry x = true) (decoded read).
Proof.
  destruct read as [[t|]|]; simpl; try constructor.
  destruct (JSON_parse t) as [v|]; [|constructor].
  destruct (validateEntries v) eqn:Hv; [|constructor].
  destruct v; simpl in *; try constructor.
  apply Forall_forall. intros x Hx. apply list_elem_of_In in Hx.
  by apply (proj1 (forallb_forall _ _) Hv).
Qed.

(** What the store has written reads back as it is. *)
Lemma decoded_stringify_reread (v : value) :
  Forall (fun x => reread_element x = x) (decoded (Ret (Some (JSON_stringify v)))).
Proof.
  unfold decoded. rewrite JSON_round_trip.
  destruct (reread v) as [p|] eqn:Hp; [|constructor].
  destruct (validateEntries p); [|constructor].
  apply reread_idempotent in Hp.
  destruct p; simpl in *; try constructor.
  injection Hp as Hp. apply Forall_forall. intros x Hx.
  apply list_elem_of_lookup in Hx as [i Hi].
  apply (f_equal (fun l => l !! i)) in Hp.
  rewrite list_lookup_fmap, Hi in Hp. simpl in Hp. by injection Hp.
Qed.

(** A valid entry that a round trip leaves alone has a finite
    [createdAt]. *)
Lemma createdAt_finite (x : value) :
  validateEntry x = true -> reread_element x = x ->
  exists z, field x "createdAt" = VNum (Fin z).
Proof.
  intros Hv Hx. destruct (validateEntry_object x Hv) as [props ->].
  destruct (validateEntry_createdAt _ Hv) as [n Hn].
  unfold reread_element in Hx. simpl in Hx. rewrite <- Hx in Hn.
  rewrite field_reread in Hn.
  rewrite <- Hx. rewrite field_reread.
  destruct (field (VObj props) "createdAt") as [| | |[z| | |]| | |];
    try discriminate; eauto.
Qed.

(** The order of the numbers, and the comparator of the sort. *)
Lemma number_le_trans (x y z : number) :
  number_le x y -> number_le y z -> number_le x z.
Proof. destruct x, y, z; simpl; try done. lia. Qed.

Lemma positive_number_sub (x y : number) :
  x <> NaN -> y <> NaN ->
  if positive_number (number_sub y x) then number_le x y else number_le y x.
Proof.
  destruct x as [a| | |], y as [b| | |]; simpl; try done.
  destruct (0 <? b - a) eqn:Hcmp; [apply Z.ltb_lt in Hcmp|apply Z.ltb_ge in Hcmp]; lia.
Qed.

Lemma number_le_not_positive (x y : number) :
  number_le y x -> positive_number (number_sub y x) = false.
Proof.
  destruct x as [a| | |], y as [b| | |]; simpl; try done.
  intros Hle. apply Z.ltb_ge. lia.
Qed.

Lemma sort_insert_sorted (x : value) (xs : list value) :
  (exists n, field x "createdAt" = VNum n /\ n <> NaN) ->
  Forall (fun y => exists n, field y "createdAt" = VNum n /\ n <> NaN) xs ->
  StronglySorted createdAt_desc xs ->
  StronglySorted createdAt_desc (sort_insert byCreatedAtDesc x xs).
Proof.
  intros (nx & Hx & Hnx) Hnum Hsorted.
  induction Hsorted as [|y ys Hys IH Hy]; simpl.
  - repeat constructor.
  - inversion Hnum as [|? ? (ny & Hzy & Hny) Hnum']; subst.
    unfold byCreatedAtDesc at 1. rewrite Hx, Hzy. simpl.
    pose proof (positive_number_sub nx ny Hnx Hny) as Hcmp.
    destruct (positive_number (number_sub ny nx)).
    + constructor; [by apply IH|].
      rewrite sort_insert_Permutation. constructor; [|done].
      by exists ny, nx.
    + constructor; [by constructor|].
      constructor; [by exists nx, ny|].
      eapply Forall_impl; [exact Hy|].
      intros b (u & v & Hu & Hv & Huv). rewrite Hzy in Hu. injection Hu as <-.
      exists nx, v. split_and!; [done|done|by eapply number_le_trans].
Qed.

Lemma sort_sorted (xs : list value) :
  Forall (fun y => exists n, field y "createdAt" = VNum n /\ n <> NaN) xs ->
  StronglySorted createdAt_desc (sort byCreatedAtDesc xs).
Proof.
  induction 1 as [|x xs Hx Hxs IH]; simpl; [constructor|].
  apply sort_insert_sorted; [done| |done].
  by apply Forall_sort.
Qed.

(** No property of an entry that [JSON.parse] returned is [NaN]. *)
Lemma decoded_no_NaN (read : outcome (option text)) (name : string) :
  Forall (fun y => forall n, field y name = VNum n -> n <> NaN) (decoded read).
Proof.
  destruct read as [[[| |j]|]|]; simpl in *; try constructor.
  destruct (validateEntries (json_parse j)); [|constructor].
  destruct j as [| | | | |items|]; simpl in *; try constructor.
  apply Forall_forall. intros x (jx & -> & _)%list_elem_of_fmap n Hn.
  destruct jx as [| | | | | |members]; try discriminate.
  simpl in Hn. rewrite lookup_fmap in Hn.
  destruct (members !! name) as [j'|]; simpl in Hn; [|discriminate].
  by eapply json_parse_number.
Qed.

(** The [createdAt] of an entry that [JSON.parse] returned and
    [validateEntries] accepted is a number, finite or infinite. *)
Lemma decoded_createdAt (read : outcome (option text)) :
  Forall (fun y => exists n, field y "createdAt" = VNum n /\ n <> NaN) (decoded read).
Proof.
  pose proof (decoded_valid read) as Hv.
  pose proof (decoded_no_NaN read "createdAt") as Hn.
  apply Forall_forall. intros x Hx. rewrite Forall_forall in Hv, Hn.
  destruct (validateEntry_createdAt _ (Hv x Hx)) as [n Hc].
  exists n. split; [done|]. by apply (Hn x Hx).
Qed.

(** ** The store on the device *)

Lemma getEntries_device (s : state device) :
  getEntries s = (Ret (collection (world s)), s).
Proof. rewrite getEntries_read. by destruct s. Qed.

Lemma collection_valid (d : device) :
  Forall (fun x => validateEntry x = true) (collection d).
Proof. apply Forall_sort, decoded_valid. Qed.

Lemma collection_reread (d : device) :
  settled d -> Forall (fun x => reread_element x = x) (collection d).
Proof.
  unfold settled. intros Hd. apply Forall_forall. intros x Hx.
  apply list_elem_of_lookup in Hx as [i Hi].
  apply (f_equal (fun l => l !! i)) in Hd.
  rewrite list_lookup_fmap, Hi in Hd. simpl in Hd. by injection Hd.
Qed.

Lemma map_reread_stable (xs : list value) :
  Forall (fun x => reread_element x = x) xs -> map reread_element xs = xs.
Proof.
  intros Hr. rewrite <- (map_id xs) at 2. apply map_ext_Forall.
  eapply Forall_impl; [exact Hr|]. done.
Qed.

Lemma validateEntries_app (xs : list value) (e : value) :
  Forall (fun x => validateEntry x = true) xs ->
  validateEntries (VArr (xs ++ [e])) = validateEntry e.
Proof.
  intros Hxs. simpl. rewrite forallb_app. simpl. rewrite andb_true_r.
  replace (forallb validateEntry xs) with true; [done|].
  symmetry. apply forallb_forall. intros x Hx%list_elem_of_In.
  by rewrite Forall_forall in Hxs; apply Hxs.
Qed.

(** What the device holds once the store has written a collection
    followed by one more object. *)
Lemma decoded_written (xs : list value) (props : gmap string value) :
  Forall (fun x => validateEntry x = true) xs ->
  Forall (fun x => reread_element x = x) xs ->
  decoded (Ret (Some (JSON_stringify (VArr (xs ++ [VObj props]))))) =
    if validateEntry (VObj (omap reread props))
    then xs ++ [VObj (omap reread props)] else [].
Proof.
  intros Hv Hr. unfold decoded. rewrite JSON_round_trip.
  cbn [reread]. rewrite map_app. cbn [map].
  change (map _ xs) with (map reread_element xs).
  rewrite (map_reread_stable xs Hr).
  cbn [default]. by rewrite validateEntries_app.
Qed.

Lemma collection_write (d : device) (t : text) :
  collection (write ENTRIES t d) = sort byCreatedAtDesc (decoded (Ret (Some t))).
Proof. unfold collection, write. simpl. by rewrite lookup_insert_eq. Qed.

(** The collection of a new device is settled, and so is every collection
    that the store has written. *)
Lemma settled_fresh (c : nat -> Z) (r : nat -> string) : settled (fresh c r).
Proof. reflexivity. Qed.

Lemma settled_write (v : value) (d : device) :
  settled (write ENTRIES (JSON_stringify v) d).
Proof.
  unfold settled. rewrite collection_write. apply map_reread_stable.
  apply Forall_sort, decoded_stringify_reread.
Qed.

Lemma settled_erase (d : device) : settled (erase ENTRIES d).
Proof.
  unfold settled, collection, erase. cbn [disk]. by rewrite lookup_delete_eq.
Qed.


(** Running an operation one call at a time. *)
Lemma bind_Ret {W A B} (m : M W A) (k : A -> M W B) s a s' :
  m s = (Ret a, s') -> bind m k s = k a s'.
Proof.
  unfold bind. by intros ->.
Qed.

Lemma try_catch_Ret {W A} (m : M W A) (h : exn -> M W A) s a s' :
  m s = (Ret a, s') -> try_catch m h s = (Ret a, s').
Proof.
  unfold try_catch. by intros ->.
Qed.

Lemma try_catch_Throw {W A} (m : M W A) (h : exn -> M W A) s e s' :
  m s = (Throw e, s') -> try_catch m h s = h e s'.
Proof.
  unfold try_catch. by intros ->.
Qed.

Lemma deref_Some {W} (s : state W) (l : ref) (e : value) :
  heap s !! l = Some e -> deref l s = (Ret e, s).
Proof.
  unfold deref. by intros ->.
Qed.

Lemma assign_Some {W} (s : state W) (l : ref) (name : string) (x e : value) :
  heap s !! l = Some e ->
  assign l name x s = (Ret tt, State (<[l := set_field name x e]> (heap s)) (world s)).
Proof.
  intros Hl. unfold assign. do 2 f_equal.
  apply map_eq. intros k. destruct (decide (l = k)) as [<-|Hne].
  - by rewrite lookup_alter_eq, lookup_insert_eq, Hl.
  - by rewrite lookup_alter_ne, lookup_insert_ne.
Qed.

Ltac step_with tac := erewrite bind_Ret by tac.
Ltac step := step_with ltac:(reflexivity).

(** [saveEntry] on the device, for a valid entry. *)
Lemma saveEntry_device (s : state device) (l : ref) (e : value) :
  heap s !! l = Some e -> validateEntry e = true ->
  let d := world s in
  let hit := existsb (hasId (field e "id")) (collection d) in
  let e1 := if hit then set_field "id" (regenerated d) e else e in
  let d1 := if hit then roll (tick d) else d in
  let d2 := write ENTRIES (JSON_stringify (VArr (collection d ++ [e1]))) d1 in
  saveEntry l s =
    (Ret (existsb (hasId (field e1 "id")) (collection d2)),
     State (if hit then <[l := e1]> (heap s) else heap s) d2).
Proof.
  intros Hl He d hit e1 d1 d2.
  unfold saveEntry. apply try_catch_Ret.
  step_with ltac:(by apply deref_Some).
  rewrite He. cbn [negb]. step.
  step_with ltac:(apply getEntries_device).
  step_with ltac:(by apply deref_Some).
  fold d. fold hit.
  destruct s as [h w]. cbn [heap world] in *. subst d.
  destruct hit eqn:Hhit; subst e1 d1 d2.
  - erewrite (bind_Ret (bind now _)).
    2:{ step. step. by apply assign_Some. }
    cbn [heap world Date_now Math_random_toString36 device_platform fst snd].
    step_with ltac:(apply deref_Some, lookup_insert_eq).
    step.
    step_with ltac:(apply getEntries_device).
    step_with ltac:(apply deref_Some, lookup_insert_eq).
    cbn [heap world AsyncStorage_setItem device_platform fst snd].
    change (dice (tick w) O) with (dice w O). fold (regenerated w).
    match goal with |- context [negb ?b] => by destruct b end.
  - step.
    step_with ltac:(by apply deref_Some).
    step.
    step_with ltac:(apply getEntries_device).
    step_with ltac:(by apply deref_Some).
    cbn [heap world AsyncStorage_setItem device_platform fst snd].
    match goal with |- context [negb ?b] => by destruct b end.
Qed.

(** ** Ids *)

Lemma strict_equal_eq (a b : value) : strict_equal a b = true -> a = b.
Proof.
  destruct a as [| |x|x|x| |], b as [| |y|y|y| |]; simpl; try done.
  - by intros ->%Bool.eqb_prop.
  - destruct x, y; simpl; try done. by intros ->%Z.eqb_eq.
  - by intros ->%String.eqb_eq.
Qed.

Lemma strict_equal_string (s : string) : strict_equal (VStr s) (VStr s) = true.
Proof. apply String.eqb_refl. Qed.

Lemma existsb_hasId (s : string) (xs : list value) :
  existsb (hasId (VStr s)) xs = true <-> VStr s ∈ ids xs.
Proof.
  unfold ids. rewrite existsb_exists, list_elem_of_fmap. split.
  - intros (x & Hx%list_elem_of_In & Hid). exists x.
    split; [|done]. symmetry. by apply strict_equal_eq.
  - intros (x & Hid & Hx). exists x. split; [by apply list_elem_of_In|].
    unfold hasId. rewrite <- Hid. apply strict_equal_string.
Qed.

Lemma not_existsb_hasId (s : string) (xs : list value) :
  existsb (hasId (VStr s)) xs = false <-> VStr s ∉ ids xs.
Proof. rewrite <- existsb_hasId. by destruct (existsb _ _). Qed.

Lemma ids_Permutation (xs ys : list value) :
  Permutation xs ys -> Permutation (ids xs) (ids ys).
Proof. apply Permutation_map. Qed.

Lemma ids_sort c (xs : list value) : Permutation (ids (sort c xs)) (ids xs).
Proof. apply ids_Permutation, sort_Permutation. Qed.

(** The id of an entry is the same once written and read back. *)
Lemma field_id_reread (props : gmap string value) (s : string) :
  field (VObj props) "id" = VStr s -> field (VObj (omap reread props)) "id" = VStr s.
Proof. rewrite field_reread. by intros ->. Qed.

(** The collection after the store has written [xs ++ [e]]. *)
Lemma collection_written (d d' : device) (props : gmap string value) :
  settled d ->
  collection (write ENTRIES (JSON_stringify (VArr (collection d ++ [VObj props]))) d') =
    if validateEntry (VObj (omap reread props))
    then sort byCreatedAtDesc (collection d ++ [VObj (omap reread props)])
    else [].
Proof.
  intros Hd. rewrite collection_write, decoded_written
    by auto using collection_valid, collection_reread.
  by destruct (validateEntry _).
Qed.

Lemma getEntryById_device (id : value) (s : state device) :
  getEntryById id s =
    (Ret (let entry := find (hasId id) (collection (world s)) in
          if falsy entry then VNull else entry), s).
Proof.
  unfold getEntryById. apply try_catch_Ret.
  by step_with ltac:(apply getEntries_device).
Qed.

(** ** Saving and reading back (C1) *)

(** C1, as stated, fails: an entry whose [createdAt] is [NaN] passes
    [validateEntry] and its id is new to the empty store, but [saveEntry]
    returns [false] (the entry is written with [createdAt] null, and the
    array read back for the verification is rejected by
    [validateEntries]). *)
Lemma C1_counterexample :
  heap nan_start !! 1%nat = Some entry_nan
  /\ validateEntry entry_nan = true
  /\ (field entry_nan "id" ∉ ids (collection (world nan_start)))
  /\ result (saveEntry 1%nat) nan_start = Ret false
  /\ result (getEntryById (field entry_nan "id")) (after (saveEntry 1%nat) nan_start)
     = Ret VNull.
Proof.
  split_and!; try (vm_compute; reflexivity).
  vm_compute. by intros H%elem_of_nil.
Qed.

(** C1, amended: for every entry [e] that passes [validateEntry], whose
    latitude, longitude and createdAt are finite and whose id does not
    occur in the stored collection, and for every stored collection that a
    JSON round trip leaves as it is, [saveEntry] returns [true] on the
    device, and [getEntryById] of its id then returns the JSON round trip
    of [e], which is [e] itself when [e] holds no [undefined] property and
    no number that is not finite. *)
Theorem C1_save_then_getEntryById (s : state device) (l : ref) (e : value) :
  settled (world s) ->
  heap s !! l = Some e ->
  validateEntry e = true ->
  finiteNumbers e = true ->
  field e "id" ∉ ids (collection (world s)) ->
  result (saveEntry l) s = Ret true
  /\ (exists e', reread e = Some e'
        /\ result (getEntryById (field e "id")) (after (saveEntry l) s) = Ret e')
  /\ (reread e = Some e ->
      result (getEntryById (field e "id")) (after (saveEntry l) s) = Ret e).
Proof.
  intros Hs Hl He Hfin Hnew.
  destruct (validateEntry_object e He) as [props ->].
  destruct (validateEntry_id _ He) as [id Hid].
  rewrite Hid in *.
  pose proof (saveEntry_device s l _ Hl He) as Hsave. cbv zeta in Hsave.
  rewrite Hid in Hsave.
  apply not_existsb_hasId in Hnew. rewrite Hnew in Hsave.
  rewrite collection_written in Hsave by done.
  rewrite (validateEntry_reread props He Hfin) in Hsave.
  rewrite Hid in Hsave.
  set (e' := VObj (omap reread props)) in *.
  assert (hasId (VStr id) e' = true) as He'.
  { unfold hasId, e'. rewrite (field_id_reread props id Hid).
    apply strict_equal_string. }
  assert (existsb (hasId (VStr id)) (sort byCreatedAtDesc (collection (world s) ++ [e']))
          = true) as Hsaved.
  { rewrite existsb_sort, existsb_app. simpl. by rewrite He', orb_true_r. }
  assert (result (getEntryById (VStr id)) (after (saveEntry l) s) = Ret e') as Hget.
  { unfold result, after. rewrite Hsave, getEntryById_device. cbn [fst snd world].
    rewrite collection_written by done.
    rewrite (validateEntry_reread props He Hfin). fold e'.
    rewrite (find_unique (hasId (VStr id)) _ e'); [done| |done|].
    - apply elem_of_sort, elem_of_app. right. by apply list_elem_of_singleton.
    - apply Forall_sort, Forall_app. split.
      + apply Forall_forall. intros x Hx Hxid. exfalso.
        assert (existsb (hasId (VStr id)) (collection (world s)) = true) as Hex.
        { apply existsb_exists. exists x. split; [by apply list_elem_of_In|done]. }
        congruence.
      + by repeat constructor. }
  split_and!.
  - unfold result. by rewrite Hsave, Hsaved.
  - exists e'. by split.
  - simpl. intros Hplain. injection Hplain as Hplain.
    rewrite Hget. unfold e'. by rewrite Hplain.
Qed.

Lemma C1_save_then_getEntryById_witness :
  result (saveEntry 1%nat) scenario_start = Ret true
  /\ result (getEntryById (VStr "a")) (after (saveEntry 1%nat) scenario_start)
     = Ret entry_a.
Proof.
  assert (settled (world scenario_start)) as Hs by reflexivity.
  assert (heap scenario_start !! 1%nat = Some entry_a) as Hl by reflexivity.
  assert (validateEntry entry_a = true) as He by reflexivity.
  assert (finiteNumbers entry_a = true) as Hfin by reflexivity.
  assert (field entry_a "id" ∉ ids (collection (world scenario_start))) as Hnew.
  { vm_compute. by intros H%elem_of_nil. }
  destruct (C1_save_then_getEntryById scenario_start 1%nat entry_a Hs Hl He Hfin Hnew)
    as (Hsave & _ & Hget).
  split; [exact Hsave|]. apply Hget. reflexivity.
Defined.

(** The condition on the numbers is needed: without it [saveEntry]
    returns [false], and the collection reads as empty from then on. *)
Lemma saveEntry_not_finite (s : state device) (l : ref) (e : value) :
  settled (world s) ->
  heap s !! l = Some e ->
  validateEntry e = true ->
  finiteNumbers e = false ->
  field e "id" ∉ ids (collection (world s)) ->
  result (saveEntry l) s = Ret false
  /\ collection (world (after (saveEntry l) s)) = [].
Proof.
  intros Hs Hl He Hfin Hnew.
  destruct (validateEntry_object e He) as [props ->].
  destruct (validateEntry_id _ He) as [id Hid].
  pose proof (saveEntry_device s l _ Hl He) as Hsave. cbv zeta in Hsave.
  rewrite Hid in Hnew, Hsave.
  apply not_existsb_hasId in Hnew. rewrite Hnew in Hsave.
  rewrite collection_written in Hsave by done.
  assert (validateEntry (VObj (omap reread props)) = false) as Hrr.
  { destruct (validateEntry (VObj (omap reread props))) eqn:Hv; [|done].
    apply validateEntry_reread_finite in Hv. congruence. }
  rewrite Hrr in Hsave. unfold result, after. rewrite Hsave. cbn [fst snd world].
  by rewrite collection_written, Hrr.
Qed.

(** The condition on the stored collection is needed as well: when the
    entries key holds an entry whose [createdAt] is the literal [1e999],
    [getEntries] returns that entry with an infinite [createdAt];
    [saveEntry] of a valid entry with finite numbers under a new id writes
    the infinity as [null], returns [false], and the collection reads as
    empty from then on. *)
Example saveEntry_overflow_stored :
  map (fun x => field x "createdAt") (collection (world overflow_start))
  = [VNum PosInf]
  /\ ~ settled (world overflow_start)
  /\ heap overflow_start !! 1%nat = Some entry_a
  /\ validateEntry entry_a = true
  /\ finiteNumbers entry_a = true
  /\ (field entry_a "id" ∉ ids (collection (world overflow_start)))
  /\ result (saveEntry 1%nat) overflow_start = Ret false
  /\ collection (world (after (saveEntry 1%nat) overflow_start)) = [].
Proof.
  split_and!; try (vm_compute; reflexivity).
  - unfold settled. vm_compute. discriminate.
  - apply not_existsb_hasId. vm_compute. reflexivity.
Qed.

(** What is read back is the round trip, not the entry: a [NaN] inside
    [weather] comes back as [null]. *)
Example getEntryById_round_trip :
  validateEntry entry_weather_nan = true
  /\ finiteNumbers entry_weather_nan = true
  /\ result (saveEntry 1%nat) weather_nan_start = Ret true
  /\ field (field entry_weather_nan "weather") "temperature" = VNum NaN
  /\ (exists e', result (getEntryById (VStr "w")) (after (saveEntry 1%nat) weather_nan_start)
                 = Ret e'
                 /\ field (field e' "weather") "temperature" = VNull).
Proof.
  split_and!; try (vm_compute; reflexivity).
  eexists. split; vm_compute; reflexivity.
Qed.

(** ** Collisions (C2, C3, C10) *)

Lemma field_set_field (props : gmap string value) (name : string) (x : value) :
  field (set_field name x (VObj props)) name = x.
Proof. simpl. by rewrite lookup_insert_eq. Qed.

Lemma saveEntry_invalid (s : state device) (l : ref) :
  validateEntry (default VUndefined (heap s !! l)) = false ->
  saveEntry l s = (Ret false, s).
Proof.
  intros He. unfold saveEntry.
  erewrite try_catch_Throw; [reflexivity|].
  erewrite bind_Ret by reflexivity. rewrite He. reflexivity.
Qed.

(** [saveEntry] on the device, for a valid entry whose id is taken. *)
Lemma saveEntry_collision (s : state device) (l : ref) (e : value) :
  heap s !! l = Some e -> validateEntry e = true ->
  field e "id" ∈ ids (collection (world s)) ->
  let e1 := set_field "id" (regenerated (world s)) e in
  let d2 := write ENTRIES (JSON_stringify (VArr (collection (world s) ++ [e1])))
                  (roll (tick (world s))) in
  saveEntry l s =
    (Ret (existsb (hasId (regenerated (world s))) (collection d2)),
     State (<[l := e1]> (heap s)) d2).
Proof.
  intros Hl He Hin e1 d2.
  pose proof (saveEntry_device s l e Hl He) as Hsave. cbv zeta in Hsave.
  destruct (validateEntry_object e He) as [props ->].
  destruct (validateEntry_id _ He) as [id Hid].
  rewrite Hid in Hin, Hsave. apply existsb_hasId in Hin. rewrite Hin in Hsave.
  by rewrite field_set_field in Hsave.
Qed.

(** The mutated entry, written and read back. *)
Lemma reread_regenerated (d : device) (props : gmap string value) :
  exists props', reread (set_field "id" (regenerated d) (VObj props)) = Some (VObj props')
    /\ field (VObj props') "id" = regenerated d
    /\ (validateEntry (VObj props) = true -> finiteNumbers (VObj props) = true ->
        validateEntry (VObj props') = true).
Proof.
  exists (omap reread (<["id" := regenerated d]> props)). split; [done|]. split.
  - rewrite field_reread. unfold field. by rewrite lookup_insert_eq.
  - intros He Hfin. apply validateEntry_reread.
    + apply validateEntry_true in He as (H0 & Hreq & H1 & H2 & H3 & H4).
      apply validateEntry_true. unfold field in *.
      cbn [forallb requiredFields fst snd] in *.
      rewrite lookup_insert_eq.
      rewrite !lookup_insert_ne by done.
      split_and!; try done.
      rewrite !andb_true_iff in *. destruct Hreq as (_ & ?). by split.
    + unfold finiteNumbers, field in *. cbn [forallb] in *.
      by rewrite !lookup_insert_ne by done.
Qed.

Lemma heap_valid (s : state device) (l : ref) :
  validateEntry (default VUndefined (heap s !! l)) = true ->
  heap s !! l = Some (default VUndefined (heap s !! l)).
Proof. by destruct (heap s !! l). Qed.

Lemma NoDup_ids_snoc (xs : list value) (e : value) :
  NoDup (ids xs) -> field e "id" ∉ ids xs -> NoDup (ids (xs ++ [e])).
Proof.
  intros Hxs He. unfold ids in *. rewrite map_app. simpl.
  apply NoDup_app. split_and!; [done| |apply NoDup_singleton].
  intros x Hx ->%list_elem_of_singleton. done.
Qed.

(** [saveEntry] leaves a settled collection settled. *)
Lemma saveEntry_settled (s : state device) (l : ref) :
  settled (world s) -> settled (world (after (saveEntry l) s)).
Proof.
  intros Hs.
  destruct (validateEntry (default VUndefined (heap s !! l))) eqn:He.
  2:{ unfold after. by rewrite saveEntry_invalid. }
  unfold after. rewrite (saveEntry_device s l _ (heap_valid s l He) He).
  cbn [snd world]. apply settled_write.
Qed.

(** One [saveEntry] keeps the ids of the collection distinct, when the id
    it regenerates, if any, is new. *)
Lemma saveEntry_NoDup (s : state device) (l : ref) :
  settled (world s) ->
  NoDup (ids (collection (world s))) ->
  (collides s l = true -> regenerated (world s) ∉ ids (collection (world s))) ->
  NoDup (ids (collection (world (after (saveEntry l) s)))).
Proof.
  intros Hs Hnodup Hfresh. unfold collides in Hfresh. cbv zeta in Hfresh.
  destruct (validateEntry (default VUndefined (heap s !! l))) eqn:He.
  2:{ unfold after. by rewrite saveEntry_invalid. }
  pose proof (heap_valid s l He) as Hl.
  set (e := default VUndefined (heap s !! l)) in *.
  destruct (validateEntry_object e He) as [props Hprops].
  destruct (validateEntry_id e He) as [id Hid].
  unfold after. rewrite (saveEntry_device s l e Hl He). cbn [snd world].
  rewrite Hid in *. rewrite Hprops in *. clear e Hprops.
  destruct (existsb (hasId (VStr id)) (collection (world s))) eqn:Hhit.
  - specialize (Hfresh eq_refl).
    destruct (reread_regenerated (world s) props) as (props' & Hrr & Hid' & _).
    simpl in Hrr. injection Hrr as <-.
    change (set_field "id" (regenerated (world s)) (VObj props))
      with (VObj (<["id" := regenerated (world s)]> props)).
    rewrite collection_written by done.
    case_match; [|constructor].
    rewrite ids_sort. apply NoDup_ids_snoc; [done|]. by rewrite Hid'.
  - rewrite collection_written by done.
    case_match; [|constructor].
    rewrite ids_sort. apply NoDup_ids_snoc; [done|].
    rewrite (field_id_reread props id Hid). by apply not_existsb_hasId.
Qed.

Lemma saveAll_NoDup (entries : list ref) (s : state device) :
  settled (world s) ->
  NoDup (ids (collection (world s))) ->
  regeneratedFresh entries s ->
  NoDup (ids (collection (world (saveAll entries s)))).
Proof.
  revert s. induction entries as [|l entries IH]; intros s Hst Hs Hfresh; simpl; [done|].
  destruct Hfresh as [Hl Hrest].
  apply IH; [by apply saveEntry_settled| |done]. by apply saveEntry_NoDup.
Qed.

Lemma regeneratedFresh_take (entries : list ref) (s : state device) (n : nat) :
  regeneratedFresh entries s -> regeneratedFresh (take n entries) s.
Proof.
  revert s n. induction entries as [|l entries IH]; intros s [|n]; simpl; try done.
  intros [Hl Hrest]. split; [done|]. by apply IH.
Qed.

(** C2, as stated, fails: from the empty store, save an entry under the id
    that the clock and the generator lead to, then two entries under the id
    "a"; the second of them is re-identified to the id of the first entry,
    and the collection holds that id twice. *)
Lemma C2_counterexample :
  disk (world clash_start) = ∅
  /\ ids (collection (world (saveAll [1; 2; 3]%nat clash_start)))
     = [VStr "entry_rs_k2j4h5g6f"; VStr "a"; VStr "entry_rs_k2j4h5g6f"]
  /\ ~ NoDup (ids (collection (world (saveAll [1; 2; 3]%nat clash_start)))).
Proof.
  assert (ids (collection (world (saveAll [1; 2; 3]%nat clash_start)))
          = [VStr "entry_rs_k2j4h5g6f"; VStr "a"; VStr "entry_rs_k2j4h5g6f"]) as Hids.
  { vm_compute. reflexivity. }
  split_and!; [done|done|]. rewrite Hids.
  intros Hnodup. apply NoDup_cons in Hnodup as [Hnotin _].
  apply Hnotin. do 2 constructor.
Qed.

(** C2, amended: for every sequence of [saveEntry] calls starting from an
    empty store in which each id regenerated on a collision is not the id
    of an entry already in the collection (the store does not check it), the
    collection never holds two entries with the same id. *)
Theorem C2_ids_unique (h : gmap nat value) (c : nat -> Z) (r : nat -> string)
    (entries : list ref) (n : nat) :
  regeneratedFresh entries (State h (fresh c r)) ->
  NoDup (ids (collection (world (saveAll (take n entries) (State h (fresh c r)))))).
Proof.
  intros Hfresh. apply saveAll_NoDup.
  - apply settled_fresh.
  - constructor.
  - by apply regeneratedFresh_take.
Qed.

Lemma C2_ids_unique_witness :
  regeneratedFresh [1; 2]%nat scenario_start
  /\ NoDup (ids (collection (world (saveAll [1; 2]%nat scenario_start)))).
Proof.
  assert (regeneratedFresh [1; 2]%nat scenario_start) as Hfresh.
  { simpl. split_and!; [| |done].
    - intros Hhit. vm_compute in Hhit. discriminate.
    - intros _. apply not_existsb_hasId. vm_compute. reflexivity. }
  split; [exact Hfresh|].
  exact (C2_ids_unique _ _ _ [1; 2]%nat 2 Hfresh).
Defined.

Lemma persisted_written (d d' : device) (props : gmap string value) :
  settled d ->
  persisted (write ENTRIES (JSON_stringify (VArr (collection d ++ [VObj props]))) d')
  = collection d ++ [VObj (omap reread props)].
Proof.
  intros Hd. unfold persisted, write. cbn [disk]. rewrite lookup_insert_eq.
  rewrite JSON_round_trip. cbn [reread elements].
  rewrite map_app. cbn [map default]. f_equal.
  by apply map_reread_stable, collection_reread.
Qed.

Lemma hasId_regenerated (d : device) (e : value) :
  field e "id" = regenerated d -> hasId (regenerated d) e = true.
Proof. unfold hasId. intros ->. apply strict_equal_string. Qed.

(** C3, as stated, fails: with an entry stored under the id that the clock
    and the generator lead to, saving a second entry under that id
    regenerates the very same id; the entry that is stored carries the
    requested id, and the array holds that id twice. *)
Lemma C3_counterexample :
  let s1 := after (saveEntry 1%nat) clash_start in
  let s2 := after (saveEntry 4%nat) s1 in
  heap s1 !! 4%nat = Some entry_g2
  /\ validateEntry entry_g2 = true
  /\ field entry_g2 "id" ∈ ids (collection (world s1))
  /\ ids (persisted (world s1)) = [field entry_g2 "id"]
  /\ ids (persisted (world s2)) = [field entry_g2 "id"; field entry_g2 "id"].
Proof.
  cbv zeta. split_and!; try (vm_compute; reflexivity).
  apply existsb_hasId. vm_compute. reflexivity.
Qed.

(** C3, amended: for every valid entry [e] whose id already occurs in the
    stored collection, and for every stored collection that a JSON round
    trip leaves as it is, [saveEntry] writes the collection followed by a
    new entry whose id is the regenerated one (entry_, the clock in base 36,
    _, nine digits of the random draw), whatever the requested id; the
    entries that were there are unmodified in the persisted array, and also
    in the collection that [getEntries] returns when the three numbers of
    [e] are finite. *)
Theorem C3_collision_regenerates (s : state device) (l : ref) (e : value) :
  settled (world s) ->
  heap s !! l = Some e ->
  validateEntry e = true ->
  field e "id" ∈ ids (collection (world s)) ->
  exists e',
    reread (set_field "id" (regenerated (world s)) e) = Some e'
    /\ persisted (world (after (saveEntry l) s)) = collection (world s) ++ [e']
    /\ field e' "id"
       = VStr ("entry_" +:+ toString36 (clock (world s) O) +:+ "_"
               +:+ substr 2 9 (dice (world s) O))
    /\ (finiteNumbers e = true ->
        result (saveEntry l) s = Ret true
        /\ Permutation (collection (world (after (saveEntry l) s)))
                       (collection (world s) ++ [e'])).
Proof.
  intros Hs Hl He Hin.
  pose proof (saveEntry_collision s l e Hl He Hin) as Hsave. cbv zeta in Hsave.
  destruct (validateEntry_object e He) as [props ->].
  destruct (reread_regenerated (world s) props) as (props' & Hrr & Hid' & Hvalid).
  exists (VObj props'). split; [done|].
  simpl in Hrr. injection Hrr as <-.
  change (set_field "id" (regenerated (world s)) (VObj props))
    with (VObj (<["id" := regenerated (world s)]> props)) in Hsave.
  unfold result, after. rewrite Hsave. cbn [fst snd world].
  split_and!.
  - by apply persisted_written.
  - done.
  - intros Hfin. rewrite collection_written, (Hvalid He Hfin) by done. split.
    + f_equal. rewrite existsb_sort, existsb_app. simpl.
      by rewrite (hasId_regenerated _ _ Hid'), orb_true_r.
    + apply sort_Permutation.
Qed.

Lemma C3_collision_regenerates_witness :
  let s1 := after (saveEntry 1%nat) scenario_start in
  exists e',
    persisted (world (after (saveEntry 2%nat) s1)) = collection (world s1) ++ [e']
    /\ field e' "id" = VStr "entry_rs_k2j4h5g6f"
    /\ field e' "id" <> field entry_a2 "id"
    /\ result (saveEntry 2%nat) s1 = Ret true.
Proof.
  cbv zeta.
  assert (settled (world (after (saveEntry 1%nat) scenario_start)))
    as Hs by (vm_compute; reflexivity).
  assert (heap (after (saveEntry 1%nat) scenario_start) !! 2%nat = Some entry_a2)
    as Hl by (vm_compute; reflexivity).
  assert (validateEntry entry_a2 = true) as He by reflexivity.
  assert (field entry_a2 "id" ∈ ids (collection (world (after (saveEntry 1%nat) scenario_start))))
    as Hin by (apply existsb_hasId; vm_compute; reflexivity).
  destruct (C3_collision_regenerates _ 2%nat entry_a2 Hs Hl He Hin)
    as (e' & _ & Hp & Hid & Hfin).
  exists e'. split_and!.
  - exact Hp.
  - exact Hid.
  - rewrite Hid. vm_compute. discriminate.
  - apply Hfin. reflexivity.
Defined.

(** The same collision on a collection that holds an infinite
    [createdAt] (the literal [1e999]): the persisted array now holds
    [null] where the infinity was, so the entry that was there is modified;
    [saveEntry] returns [false] and the collection reads as empty. *)
Example saveEntry_collision_overflow :
  let s0 := State (<[1%nat := set_field "id" (VStr "y") entry_a]> ∅)
                  (world overflow_start) in
  map (fun x => field x "createdAt") (persisted (world s0)) = [VNum PosInf]
  /\ map (fun x => field x "createdAt") (persisted (world (after (saveEntry 1%nat) s0)))
     = [VNull; VNum (Fin 1000)]
  /\ result (saveEntry 1%nat) s0 = Ret false
  /\ collection (world (after (saveEntry 1%nat) s0)) = [].
Proof. vm_compute. split_and!; reflexivity. Qed.

(** C10, on every platform: when [saveEntry] finds the id of a valid
    entry in the list that [getEntries] returns, the object of the caller
    itself gets the regenerated id, before the write and whatever the
    backend does next (and no other object changes); the array handed to
    [setItem] holds the object with that id; and when the write is
    acknowledged, the value returned is whether an entry with the
    regenerated id, not the requested one, is in the list read back. *)
Theorem C10_caller_entry_mutated {W : Type} `{Platform W}
    (s : state W) (l : ref) (e : value) :
  heap s !! l = Some e ->
  validateEntry e = true ->
  field e "id"
  ∈ ids (sort byCreatedAtDesc (decoded (AsyncStorage_getItem ENTRIES (world s)).1)) ->
  let read := AsyncStorage_getItem ENTRIES (world s) in
  let existing := sort byCreatedAtDesc (decoded read.1) in
  let t := Date_now read.2 in
  let r := Math_random_toString36 t.2 in
  let newId := VStr ("entry_" +:+ toString36 t.1 +:+ "_" +:+ substr 2 9 r.1) in
  let e1 := set_field "id" newId e in
  let written :=
    AsyncStorage_setItem ENTRIES (JSON_stringify (VArr (existing ++ [e1]))) r.2 in
  let back := AsyncStorage_getItem ENTRIES written.2 in
  let s' := after (saveEntry l) s in
  heap s' !! l = Some e1
  /\ field e1 "id" = newId
  /\ (forall l', l' <> l -> heap s' !! l' = heap s !! l')
  /\ match written.1 with
     | Ret _ =>
         result (saveEntry l) s
         = Ret (existsb (hasId newId) (sort byCreatedAtDesc (decoded back.1)))
         /\ world s' = back.2
     | Throw _ => result (saveEntry l) s = Ret false /\ world s' = written.2
     end.
Proof.
  intros Hl He Hin. cbv zeta.
  destruct (validateEntry_object e He) as [props ->].
  destruct (validateEntry_id _ He) as [id Hid].
  rewrite Hid in Hin. apply existsb_hasId in Hin.
  destruct (AsyncStorage_getItem ENTRIES (world s)) as [read w0] eqn:Hread.
  cbn [fst snd] in *.
  destruct (Date_now w0) as [t w1] eqn:Ht. cbn [fst snd].
  destruct (Math_random_toString36 w1) as [r w2] eqn:Hr. cbn [fst snd].
  set (existing := sort byCreatedAtDesc (decoded read)) in *.
  set (newId := VStr ("entry_" +:+ toString36 t +:+ "_" +:+ substr 2 9 r)).
  set (e1 := set_field "id" newId (VObj props)).
  set (h1 := <[l := e1]> (heap s)).
  destruct (AsyncStorage_setItem ENTRIES (JSON_stringify (VArr (existing ++ [e1]))) w2)
    as [written w3] eqn:Hwritten.
  cbn [fst snd].
  destruct (AsyncStorage_getItem ENTRIES w3) as [back w4] eqn:Hback. cbn [fst snd].
  assert (getEntries s = (Ret existing, State (heap s) w0)) as Hget.
  { rewrite getEntries_read, Hread. reflexivity. }
  assert (bind (bind now (fun t => bind random36 (fun r =>
            assign l "id"
              (VStr ("entry_" +:+ toString36 t +:+ "_" +:+ substr 2 9 r)))))
            (fun _ => bind (deref l) (fun e =>
               bind (setItem ENTRIES (JSON_stringify (VArr (existing ++ [e]))))
                    (fun _ => bind getEntries (fun currentEntries =>
                       bind (deref l) (fun e =>
                         if negb (existsb (hasId (field e "id")) currentEntries)
                         then ret false else ret true)))))
            (State (heap s) w0)
          = match written with
            | Ret _ => (Ret (existsb (hasId newId) (sort byCreatedAtDesc (decoded back))),
                        State h1 w4)
            | Throw err => (Throw err, State h1 w3)
            end) as Hrest.
  { erewrite (bind_Ret (bind now _)).
    2:{ unfold now at 1, lift at 1, bind at 1. cbn [world heap]. rewrite Ht.
        unfold random36 at 1, lift at 1, bind at 1. cbn [world heap]. rewrite Hr.
        by apply assign_Some. }
    cbn [heap world]. fold newId e1 h1.
    step_with ltac:(apply deref_Some, lookup_insert_eq).
    unfold setItem at 1, lift at 1, bind at 1. cbn [world heap]. rewrite Hwritten.
    destruct written as [u|err]; [|done].
    erewrite bind_Ret.
    2:{ rewrite getEntries_read. cbn [world heap]. rewrite Hback. reflexivity. }
    cbn [fst snd].
    step_with ltac:(apply deref_Some, lookup_insert_eq).
    unfold e1. rewrite field_set_field.
    by destruct (existsb (hasId newId) _). }
  assert (saveEntry l s
          = match written with
            | Ret _ => (Ret (existsb (hasId newId) (sort byCreatedAtDesc (decoded back))),
                        State h1 w4)
            | Throw err => (Ret false, State h1 w3)
            end) as Hrun.
  { unfold saveEntry, try_catch.
    step_with ltac:(by apply deref_Some).
    rewrite He. cbn [negb]. step.
    step_with ltac:(exact Hget).
    step_with ltac:(by apply deref_Some).
    rewrite Hid, Hin. rewrite Hrest. by destruct written. }
  unfold result, after. rewrite Hrun.
  split_and!.
  - destruct written; apply lookup_insert_eq.
  - apply field_set_field.
  - intros l' Hne. destruct written; by apply lookup_insert_ne.
  - by destruct written.
Qed.

Lemma C10_caller_entry_mutated_witness :
  let s' := after (@saveEntry _ forgetful 2%nat) forgetful_start in
  heap forgetful_start !! 2%nat = Some entry_a2
  /\ heap s' !! 2%nat = Some (set_field "id" (VStr "entry_rs_k2j4h5g6f") entry_a2)
  /\ ids (collection (world s')) = [field entry_a2 "id"]
  /\ result (@saveEntry _ forgetful 2%nat) forgetful_start = Ret false.
Proof.
  cbv zeta.
  assert (heap forgetful_start !! 2%nat = Some entry_a2) as Hl by reflexivity.
  assert (validateEntry entry_a2 = true) as He by reflexivity.
  assert (field entry_a2 "id"
          ∈ ids (sort byCreatedAtDesc
                   (decoded (@AsyncStorage_getItem _ forgetful ENTRIES
                               (world forgetful_start)).1)))
    as Hin by (apply existsb_hasId; vm_compute; reflexivity).
  destruct (@C10_caller_entry_mutated _ forgetful forgetful_start 2%nat entry_a2
              Hl He Hin) as (Hheap & _ & _ & Hres & _).
  split_and!; [exact Hl|exact Hheap|vm_compute; reflexivity|exact Hres].
Defined.

(** ** The order of the list (C4) *)

(** C4: whatever the backend holds, [getEntries] returns the entries it
    holds (a permutation of them) sorted by [createdAt], newest first.  An
    entry whose [createdAt] is an infinity (a literal beyond the range of a
    double in the text) is in its place, before or after all the finite
    ones. *)
Theorem C4_getEntries_sorted {W : Type} `{Platform W} (s : state W) :
  exists xs,
    result getEntries s = Ret xs
    /\ Permutation xs (decoded (AsyncStorage_getItem ENTRIES (world s)).1)
    /\ StronglySorted createdAt_desc xs.
Proof.
  eexists. unfold result. rewrite getEntries_read. cbn [fst].
  split_and!; [reflexivity|apply sort_Permutation|].
  apply sort_sorted, decoded_createdAt.
Qed.

Example getEntries_newest_first :
  let s2 := saveAll [1; 2]%nat scenario_start in
  map (fun e => field e "createdAt") (collection (world s2))
  = [VNum (Fin 2000); VNum (Fin 1000)]
  /\ map (fun e => field e "createdAt") (persisted (world s2))
     = [VNum (Fin 1000); VNum (Fin 2000)].
Proof. vm_compute. split; reflexivity. Qed.

(** ** Optional fields (C5) *)

(** The tests of the optional fields, as far as they go: a [title] or
    [notes] that is there and is not a string, a [tags] that is there and is
    not an array, a [weather] that is there and whose [typeof] is not
    object, make [validateEntry] return [false]. *)
Lemma validateEntry_optional (e : value) :
  (field e "title" <> VUndefined /\ typeof (field e "title") <> "string")
  \/ (field e "notes" <> VUndefined /\ typeof (field e "notes") <> "string")
  \/ (field e "tags" <> VUndefined /\ isArray (field e "tags") = false)
  \/ (field e "weather" <> VUndefined /\ typeof (field e "weather") <> "object") ->
  validateEntry e = false.
Proof.
  intros Hwrong. destruct (validateEntry e) eqn:He; [exfalso|done].
  apply validateEntry_true in He as (_ & _ & Ht & Hn & Hg & Hw).
  destruct Hwrong as [[H1 H2]|[[H1 H2]|[[H1 H2]|[H1 H2]]]].
  - destruct (field e "title"); simpl in *; done.
  - destruct (field e "notes"); simpl in *; done.
  - destruct (field e "tags"); simpl in *; done.
  - destruct (field e "weather"); simpl in *; done.
Qed.

(** C5 on the code: a decoded entry whose [weather] is [null], which is
    there and is not a structured record, passes [validateEntry], since
    [typeof null] is object; so does one whose [weather] is an array.  The
    test of the entry itself does reject [null]. *)
Theorem C5_weather_null_accepted :
  JSON_parse (JSON_stringify entry_weather_null) = Some entry_weather_null
  /\ field entry_weather_null "weather" = VNull
  /\ validateEntry entry_weather_null = true
  /\ validateEntry entry_weather_array = true
  /\ validateEntry VNull = false.
Proof. split_and!; vm_compute; reflexivity. Qed.

(** ** Faults of the backend (C6, C7, X19) *)

Section Faults.

Context {W : Type} `{Platform W}.

(** An operation whose handler returns never throws. *)
Lemma try_catch_returns {A} (m : M W A) (a0 : A) (s : state W) :
  exists a, result (try_catch m (fun _ => ret a0)) s = Ret a.
Proof.
  unfold result, try_catch. destruct (m s) as [[a|e] s']; simpl; eauto.
Qed.

Lemma try_catch_failure {A} (m : M W A) (a0 : A) (s : state W) :
  (forall a, result m s <> Ret a) ->
  result (try_catch m (fun _ => ret a0)) s = Ret a0.
Proof.
  unfold result, try_catch. intros Hm.
  destruct (m s) as [[a|e] s']; simpl in *; [by destruct (Hm a)|done].
Qed.

Lemma try_catch_false (m : M W bool) (s : state W) :
  result m s <> Ret true ->
  result (try_catch m (fun _ => ret false)) s = Ret false.
Proof.
  unfold result, try_catch. intros Hm.
  destruct (m s) as [[[]|e] s']; simpl in *; done.
Qed.

Lemma bind_result_Ret {A B} (m : M W A) (k : A -> M W B) (s : state W) (b : B) :
  result (bind m k) s = Ret b ->
  exists a s', m s = (Ret a, s') /\ result (k a) s' = Ret b.
Proof.
  unfold result, bind. destruct (m s) as [[a|e] s']; simpl; [eauto|done].
Qed.

(** With a backend that rejects every write, the body of [saveEntry],
    [updateEntry] and [removeEntry] returns [false] or throws. *)
Hypothesis read_only :
  forall key t w, exists e, (AsyncStorage_setItem key t w).1 = Throw e.

Lemma setItem_rejected {B} key t (k : unit -> M W B) (s : state W) (b : B) :
  result (bind (setItem key t) k) s = Ret b -> False.
Proof.
  intros (a & s' & Hset & _)%bind_result_Ret.
  unfold setItem, lift in Hset.
  destruct (read_only key t (world s)) as [e He].
  destruct (AsyncStorage_setItem key t (world s)) as [r w]. simpl in He.
  congruence.
Qed.

Lemma saveEntry_read_only (entry : ref) (s : state W) :
  result (saveEntry entry) s = Ret false.
Proof.
  unfold saveEntry. apply try_catch_failure. intros b Hb.
  apply bind_result_Ret in Hb as (e & s1 & _ & Hb).
  apply bind_result_Ret in Hb as (_ & s2 & _ & Hb).
  apply bind_result_Ret in Hb as (xs & s3 & _ & Hb).
  apply bind_result_Ret in Hb as (e3 & s4 & _ & Hb).
  apply bind_result_Ret in Hb as (_ & s5 & _ & Hb).
  apply bind_result_Ret in Hb as (e5 & s6 & _ & Hb).
  by apply setItem_rejected in Hb.
Qed.

Lemma updateEntry_read_only (entry : ref) (s : state W) :
  result (updateEntry entry) s = Ret false.
Proof.
  unfold updateEntry. apply try_catch_false. intros Hb.
  apply bind_result_Ret in Hb as (u & s1 & _ & Hb).
  apply bind_result_Ret in Hb as (_ & s2 & _ & Hb).
  apply bind_result_Ret in Hb as (xs & s3 & _ & Hb).
  apply bind_result_Ret in Hb as (u3 & s4 & _ & Hb).
  destruct (findIndex _ _ =? -1); [done|].
  apply bind_result_Ret in Hb as (u5 & s5 & _ & Hb).
  by apply setItem_rejected in Hb.
Qed.

Lemma removeEntry_read_only (id : value) (s : state W) :
  result (removeEntry id) s = Ret false.
Proof.
  unfold removeEntry. apply try_catch_false. intros Hb.
  apply bind_result_Ret in Hb as (_ & s1 & _ & Hb).
  apply bind_result_Ret in Hb as (xs & s2 & _ & Hb).
  destruct (negb (existsb (hasId id) xs)); [done|].
  by apply setItem_rejected in Hb.
Qed.

End Faults.

(** C6 on the code: with one entry stored and the next read of the
    backend about to reject, [saveEntry] of a valid entry under a new id
    does not return [false].  [getEntries] takes the fault for an empty
    collection and [saveEntry] goes on: it writes the new entry alone, over
    the entry that was stored, finds it in the next read and returns
    [true].  In the same state [updateEntry] and [removeEntry] do return
    [false]. *)
Theorem C6_read_fault_reported_as_success :
  (@AsyncStorage_getItem _ flaky ENTRIES (world flaky_start)).1
  = Throw (Error "I/O error")
  /\ heap flaky_start !! 2%nat = Some entry_a
  /\ validateEntry entry_a = true
  /\ ids (persisted (world flaky_start).2) = [VStr "entry_rs_k2j4h5g6f"]
  /\ result (@saveEntry _ flaky 2%nat) flaky_start = Ret true
  /\ ids (persisted (world (after (@saveEntry _ flaky 2%nat) flaky_start)).2)
     = [VStr "a"]
  /\ result (@updateEntry _ flaky 2%nat) flaky_start = Ret false
  /\ result (@removeEntry _ flaky (VStr "entry_rs_k2j4h5g6f")) flaky_start = Ret false.
Proof. split_and!; vm_compute; reflexivity. Qed.

(** [clearAllEntries] likewise returns [true] when its verification read
    rejects, and so does [removeEntry]. *)
Example clearAllEntries_after_rejected_read :
  result (@clearAllEntries _ flaky) flaky_start = Ret true.
Proof. vm_compute. reflexivity. Qed.

Example removeEntry_after_rejected_read :
  result (@removeEntry _ flaky (VStr "entry_rs_k2j4h5g6f")) flaky_later_start
  = Ret true.
Proof. vm_compute. reflexivity. Qed.

(** X19: on every platform and in every state, no operation of the store
    throws.  When the read of the entries key rejects or returns a string
    that is not JSON, [getEntries] returns the empty list, [getEntryById]
    [null], [getEntryCount] 0, and [updateEntry] and [removeEntry]
    [false]; when [removeItem] rejects, [clearAllEntries] returns [false];
    with a backend that rejects every write, [saveEntry], [updateEntry] and
    [removeEntry] return [false]. *)
Theorem X19_faults_contained {W : Type} `{Platform W} (s : state W) :
  ((exists xs, result getEntries s = Ret xs)
   /\ (forall id, exists v, result (getEntryById id) s = Ret v)
   /\ (forall entry, exists b, result (saveEntry entry) s = Ret b)
   /\ (forall entry, exists b, result (updateEntry entry) s = Ret b)
   /\ (forall id, exists b, result (removeEntry id) s = Ret b)
   /\ (exists b, result clearAllEntries s = Ret b)
   /\ (exists n, result getEntryCount s = Ret n))
  /\ ((exists e, (AsyncStorage_getItem ENTRIES (world s)).1 = Throw e)
      \/ (AsyncStorage_getItem ENTRIES (world s)).1 = Ret (Some Garbled) ->
      result getEntries s = Ret []
      /\ (forall id, result (getEntryById id) s = Ret VNull)
      /\ result getEntryCount s = Ret 0
      /\ (forall entry, result (updateEntry entry) s = Ret false)
      /\ (forall id, result (removeEntry id) s = Ret false))
  /\ ((exists e, (AsyncStorage_removeItem ENTRIES (world s)).1 = Throw e) ->
      result clearAllEntries s = Ret false)
  /\ ((forall key t w, exists e, (AsyncStorage_setItem key t w).1 = Throw e) ->
      (forall entry, result (saveEntry entry) s = Ret false)
      /\ (forall entry, result (updateEntry entry) s = Ret false)
      /\ (forall id, result (removeEntry id) s = Ret false)).
Proof.
  split_and!; try (intros; apply try_catch_returns).
  - intros Hread.
    assert (forall s0 : state W, world s0 = world s ->
              exists s1, getEntries s0 = (Ret [], s1)) as Hempty.
    { intros s0 Hs0. rewrite getEntries_read, Hs0. eexists. f_equal.
      by destruct Hread as [[e ->]| ->]. }
    destruct (Hempty s eq_refl) as [s1 Hs1].
    split_and!.
    + unfold result. by rewrite Hs1.
    + intros id. unfold result, getEntryById.
      erewrite try_catch_Ret; [reflexivity|].
      by erewrite bind_Ret by exact Hs1.
    + unfold result, getEntryCount.
      erewrite try_catch_Ret; [reflexivity|].
      by erewrite bind_Ret by exact Hs1.
    + intros entry. unfold updateEntry. apply try_catch_false. intros Hb.
      apply bind_result_Ret in Hb as (u & s2 & Hu & Hb).
      apply bind_result_Ret in Hb as (u0 & s3 & Hv & Hb).
      unfold deref in Hu. injection Hu as <- <-.
      assert (s3 = s) as -> by (destruct (negb _); by injection Hv).
      unfold result in Hb. rewrite (bind_Ret _ _ _ _ _ Hs1) in Hb.
      erewrite bind_Ret in Hb by reflexivity. done.
    + intros id. unfold removeEntry. apply try_catch_false. intros Hb.
      apply bind_result_Ret in Hb as (u0 & s2 & Hv & Hb).
      assert (s2 = s) as -> by (destruct (_ || _); by injection Hv).
      unfold result in Hb. rewrite (bind_Ret _ _ _ _ _ Hs1) in Hb. done.
  - intros [e He]. unfold clearAllEntries. apply try_catch_false. intros Hb.
    apply bind_result_Ret in Hb as (u & s1 & Hrm & _).
    unfold removeItem, lift in Hrm.
    destruct (AsyncStorage_removeItem ENTRIES (world s)) as [r w]. simpl in He.
    congruence.
  - intros Hro. split_and!; intros;
      auto using saveEntry_read_only, updateEntry_read_only, removeEntry_read_only.
Qed.

Lemma X19_faults_contained_witness :
  result (@getEntries _ outage) (State ∅ tt) = Ret []
  /\ result (@getEntryById _ outage (VStr "a")) (State ∅ tt) = Ret VNull
  /\ result (@getEntryCount _ outage) (State ∅ tt) = Ret 0
  /\ result (@clearAllEntries _ outage) (State ∅ tt) = Ret false
  /\ result (@saveEntry _ outage 1%nat) (State (<[1%nat := entry_a]> ∅) tt) = Ret false.
Proof.
  destruct (@X19_faults_contained _ outage (State ∅ tt)) as (_ & Hread & Hremove & _).
  destruct (@X19_faults_contained _ outage (State (<[1%nat := entry_a]> ∅) tt))
    as (_ & _ & _ & Hwrite).
  destruct Hread as (Hlist & Hget & Hcount & _).
  { left. exists (Error "I/O error"). reflexivity. }
  split_and!.
  - exact Hlist.
  - apply Hget.
  - exact Hcount.
  - apply Hremove. exists (Error "I/O error"). reflexivity.
  - apply Hwrite. intros key t w. exists (Error "I/O error"). reflexivity.
Defined.

(** C7: when the entries key is absent, or holds a string that is not
    JSON, or a JSON text whose value fails [validateEntries], [getEntries]
    returns the empty list. *)
Theorem C7_corrupted_storage {W : Type} `{Platform W} (s : state W) :
  (AsyncStorage_getItem ENTRIES (world s)).1 = Ret None
  \/ (exists t, (AsyncStorage_getItem ENTRIES (world s)).1 = Ret (Some t)
                /\ (JSON_parse t = None
                    \/ exists v, JSON_parse t = Some v /\ validateEntries v = false)) ->
  result getEntries s = Ret [].
Proof.
  intros Hread. unfold result. rewrite getEntries_read. cbn [fst]. f_equal.
  destruct Hread as [->|(t & -> & [Ht|(v & Ht & Hv)])]; simpl.
  - done.
  - by rewrite Ht.
  - by rewrite Ht, Hv.
Qed.

Lemma C7_corrupted_storage_witness :
  result getEntries invalid_start = Ret []
  /\ result getEntries garbled_start = Ret []
  /\ result getEntries (State ∅ (fresh (fun _ => 0) (fun _ => "0"))) = Ret [].
Proof.
  split_and!.
  - apply C7_corrupted_storage. right.
    exists (JSON_stringify (VArr [object [("id", VNum (Fin 123))]])). split; [reflexivity|].
    right. eexists. split; reflexivity.
  - apply C7_corrupted_storage. right.
    exists Garbled. split; [reflexivity|]. by left.
  - apply C7_corrupted_storage. left. reflexivity.
Defined.

(** ** Operations on an id that is not there (C8, C9) *)

(** C8: for every id that does not occur in the stored collection,
    [removeEntry] returns [false] and leaves the device as it was: the
    same store and no write counted (and the same objects). *)
Theorem C8_remove_missing (s : state device) (id : value) :
  id ∉ ids (collection (world s)) ->
  result (removeEntry id) s = Ret false
  /\ after (removeEntry id) s = s
  /\ writes (world (after (removeEntry id) s)) = writes (world s)
  /\ collection (world (after (removeEntry id) s)) = collection (world s).
Proof.
  intros Hid.
  assert (removeEntry id s = (Ret false, s)) as Hrun.
  { unfold removeEntry.
    destruct (falsy id || negb (String.eqb (typeof id) "string")) eqn:Hguard.
    - erewrite try_catch_Throw; [reflexivity|]. reflexivity.
    - apply try_catch_Ret. step.
      step_with ltac:(apply getEntries_device).
      destruct id as [| | | |x| |]; simpl in Hguard;
        try (rewrite ?orb_true_r in Hguard; discriminate).
      apply not_existsb_hasId in Hid. by rewrite Hid. }
  unfold result, after. by rewrite Hrun.
Qed.

Lemma C8_remove_missing_witness :
  let s1 := after (saveEntry 1%nat) scenario_start in
  result (removeEntry (VStr "b")) s1 = Ret false
  /\ after (removeEntry (VStr "b")) s1 = s1.
Proof.
  cbv zeta.
  assert (VStr "b" ∉ ids (collection (world (after (saveEntry 1%nat) scenario_start))))
    as Hid by (apply not_existsb_hasId; vm_compute; reflexivity).
  destruct (C8_remove_missing _ (VStr "b") Hid) as (Hres & Hs & _).
  split; [exact Hres|exact Hs].
Defined.

(** C9: for every valid entry whose id does not occur in the stored
    collection, [updateEntry] returns [false] and leaves the device as it
    was: nothing inserted, no write counted. *)
Theorem C9_update_missing (s : state device) (l : ref) (e : value) :
  heap s !! l = Some e ->
  validateEntry e = true ->
  field e "id" ∉ ids (collection (world s)) ->
  result (updateEntry l) s = Ret false
  /\ after (updateEntry l) s = s
  /\ writes (world (after (updateEntry l) s)) = writes (world s)
  /\ collection (world (after (updateEntry l) s)) = collection (world s).
Proof.
  intros Hl He Hid.
  assert (updateEntry l s = (Ret false, s)) as Hrun.
  { unfold updateEntry. apply try_catch_Ret.
    step_with ltac:(by apply deref_Some).
    rewrite He. cbn [negb]. step.
    step_with ltac:(apply getEntries_device).
    step_with ltac:(by apply deref_Some).
    destruct (validateEntry_id e He) as [x Hx]. rewrite Hx in *.
    apply not_existsb_hasId in Hid.
    by rewrite (findIndex_none _ _ Hid). }
  unfold result, after. by rewrite Hrun.
Qed.

Lemma C9_update_missing_witness :
  let s1 := after (saveEntry 1%nat) clash_start in
  result (updateEntry 2%nat) s1 = Ret false
  /\ after (updateEntry 2%nat) s1 = s1.
Proof.
  cbv zeta.
  assert (heap (after (saveEntry 1%nat) clash_start) !! 2%nat = Some entry_a)
    as Hl by (vm_compute; reflexivity).
  assert (validateEntry entry_a = true) as He by reflexivity.
  assert (field entry_a "id" ∉ ids (collection (world (after (saveEntry 1%nat) clash_start))))
    as Hid by (apply not_existsb_hasId; vm_compute; reflexivity).
  destruct (C9_update_missing _ 2%nat entry_a Hl He Hid) as (Hres & Hs & _).
  split; [exact Hres|exact Hs].
Defined.

(** * Further properties of the store *)

(** ** A list that is sorted stays as it is *)

Lemma sort_of_sorted (xs : list value) :
  StronglySorted createdAt_desc xs -> sort byCreatedAtDesc xs = xs.
Proof.
  induction 1 as [|x xs Hxs IH Hx]; simpl; [done|].
  rewrite IH. destruct xs as [|y ys]; simpl; [done|].
  inversion Hx as [|? ? (zx & zy & Hzx & Hzy & Hle) _]; subst.
  unfold byCreatedAtDesc. rewrite Hzx, Hzy. simpl.
  by rewrite number_le_not_positive.
Qed.

Lemma StronglySorted_filter (P : value -> Prop) `{forall x, Decision (P x)}
    (xs : list value) :
  StronglySorted createdAt_desc xs ->
  StronglySorted createdAt_desc (filter P xs).
Proof.
  induction 1 as [|x xs Hxs IH Hx]; [constructor|].
  rewrite filter_cons. destruct (decide (P x)); [|done].
  constructor; [done|].
  apply Forall_forall. intros y [_ Hy]%list_elem_of_filter.
  rewrite Forall_forall in Hx. by apply Hx.
Qed.

Lemma collection_sorted (d : device) : StronglySorted createdAt_desc (collection d).
Proof. apply sort_sorted, decoded_createdAt. Qed.

(** What the device holds once the store has written a list of valid
    entries that a round trip leaves alone. *)
Lemma decoded_stable (xs : list value) :
  Forall (fun x => validateEntry x = true) xs ->
  Forall (fun x => reread_element x = x) xs ->
  decoded (Ret (Some (JSON_stringify (VArr xs)))) = xs.
Proof.
  intros Hv Hr. unfold decoded. rewrite JSON_round_trip. cbn [reread].
  change (map _ xs) with (map reread_element xs).
  rewrite (map_reread_stable xs Hr).
  cbn [validateEntries elements].
  replace (forallb validateEntry xs) with true; [done|].
  symmetry. apply forallb_forall. intros x Hx%list_elem_of_In.
  rewrite Forall_forall in Hv. by apply Hv.
Qed.

Lemma decoded_mapped (ys : list value) :
  decoded (Ret (Some (JSON_stringify (VArr ys)))) =
    if forallb validateEntry (map reread_element ys)
    then map reread_element ys else [].
Proof. unfold decoded. by rewrite JSON_round_trip. Qed.

Lemma forallb_validateEntry (xs : list value) :
  Forall (fun x => validateEntry x = true) xs -> forallb validateEntry xs = true.
Proof.
  intros Hv. apply forallb_forall. intros x Hx%list_elem_of_In.
  rewrite Forall_forall in Hv. by apply Hv.
Qed.


(** ** What [saveEntry] returns, and what it leaves (X1) *)

Lemma validateEntry_set_id (props : gmap string value) (x : string) :
  validateEntry (VObj props) = true ->
  validateEntry (VObj (<["id" := VStr x]> props)) = true.
Proof.
  intros (H0 & Hreq & H1 & H2 & H3 & H4)%validateEntry_true.
  apply validateEntry_true. unfold field in *.
  cbn [forallb requiredFields fst snd] in *.
  rewrite lookup_insert_eq. rewrite !lookup_insert_ne by done.
  split_and!; try done.
  rewrite !andb_true_iff in *. destruct Hreq as (_ & ?). by split.
Qed.

Lemma finiteNumbers_set_id (props : gmap string value) (x : value) :
  finiteNumbers (VObj (<["id" := x]> props)) = finiteNumbers (VObj props).
Proof.
  unfold finiteNumbers, field. cbn [forallb].
  by rewrite !lookup_insert_ne by done.
Qed.

Lemma hasId_reread (props : gmap string value) (x : string) :
  field (VObj props) "id" = VStr x ->
  hasId (VStr x) (VObj (omap reread props)) = true.
Proof.
  intros Hx. unfold hasId. rewrite (field_id_reread props x Hx).
  apply strict_equal_string.
Qed.

(** A valid entry is valid after a round trip exactly when its three
    numbers are finite. *)
Lemma validateEntry_written (props : gmap string value) :
  validateEntry (VObj props) = true ->
  validateEntry (VObj (omap reread props)) = finiteNumbers (VObj props).
Proof.
  intros He. destruct (finiteNumbers (VObj props)) eqn:Hfin.
  - by apply validateEntry_reread.
  - destruct (validateEntry (VObj (omap reread props))) eqn:Hv; [|done].
    apply validateEntry_reread_finite in Hv. congruence.
Qed.

Lemma forallb_validateEntry_reread (xs : list value) :
  Forall (fun x => validateEntry x = true) xs ->
  forallb validateEntry (map reread_element xs) = forallb finiteNumbers xs.
Proof.
  induction 1 as [|x xs Hx Hxs IH]; [done|].
  simpl. rewrite IH. f_equal.
  destruct (validateEntry_object x Hx) as [props ->].
  by apply validateEntry_written.
Qed.

(** A settled collection holds finite numbers only. *)
Lemma settled_finiteNumbers (d : device) :
  settled d -> forallb finiteNumbers (collection d) = true.
Proof.
  intros Hd. rewrite <- forallb_validateEntry_reread by apply collection_valid.
  rewrite Hd. apply forallb_validateEntry, collection_valid.
Qed.

(** The collection after the store has written [xs ++ [e]], whatever the
    entries key held. *)
Lemma collection_written_any (d d' : device) (props : gmap string value) :
  validateEntry (VObj props) = true ->
  collection (write ENTRIES (JSON_stringify (VArr (collection d ++ [VObj props]))) d') =
    if finiteNumbers (VObj props) && forallb finiteNumbers (collection d)
    then sort byCreatedAtDesc
           (map reread_element (collection d) ++ [VObj (omap reread props)])
    else [].
Proof.
  intros He. rewrite collection_write, decoded_mapped, map_app, forallb_app.
  rewrite forallb_validateEntry_reread by apply collection_valid.
  cbn [map forallb]. change (reread_element (VObj props)) with (VObj (omap reread props)).
  rewrite (validateEntry_written _ He), andb_true_r, andb_comm.
  by destruct (_ && _).
Qed.

Lemma persisted_write (d : device) (ys : list value) :
  persisted (write ENTRIES (JSON_stringify (VArr ys)) d) = map reread_element ys.
Proof.
  unfold persisted, write. cbn [disk]. rewrite lookup_insert_eq.
  by rewrite JSON_round_trip.
Qed.

(** [saveEntry] on the device, for a valid entry: its result and the
    collection it leaves. *)
Lemma saveEntry_outcome (s : state device) (l : ref) (e : value) :
  heap s !! l = Some e ->
  validateEntry e = true ->
  let saved := finiteNumbers e && forallb finiteNumbers (collection (world s)) in
  result (saveEntry l) s = Ret saved
  /\ (saved = true ->
      exists e',
        Permutation (collection (world (after (saveEntry l) s)))
                    (map reread_element (collection (world s)) ++ [e'])
        /\ length (collection (world (after (saveEntry l) s)))
           = S (length (collection (world s)))
        /\ (forall name, name <> "id" ->
                         field e' name = reread_field (field e name)))
  /\ (saved = false ->
      validateEntries (VArr (persisted (world (after (saveEntry l) s)))) = false
      /\ collection (world (after (saveEntry l) s)) = []).
Proof.
  intros Hl He saved.
  pose proof (saveEntry_device s l e Hl He) as Hsave. cbv zeta in Hsave.
  destruct (validateEntry_object e He) as [props ->].
  destruct (validateEntry_id _ He) as [id Hid].
  set (hit := existsb (hasId (field (VObj props) "id")) (collection (world s))) in *.
  set (props1 := if hit then <["id" := regenerated (world s)]> props else props).
  assert ((if hit then set_field "id" (regenerated (world s)) (VObj props)
           else VObj props) = VObj props1) as He1 by (unfold props1; by destruct hit).
  rewrite He1 in Hsave.
  assert (validateEntry (VObj props1) = true) as Hv1.
  { unfold props1. destruct hit; [|done]. by apply validateEntry_set_id. }
  assert (finiteNumbers (VObj props1) = finiteNumbers (VObj props)) as Hf1.
  { unfold props1. destruct hit; [|done]. apply finiteNumbers_set_id. }
  assert (exists x, field (VObj props1) "id" = VStr x) as [x Hx]
    by (by apply validateEntry_id).
  rewrite (collection_written_any _ _ _ Hv1), Hf1 in Hsave. fold saved in Hsave.
  unfold result, after. rewrite Hsave. cbn [fst snd world].
  rewrite (collection_written_any _ _ _ Hv1), Hf1, persisted_write. fold saved.
  destruct saved eqn:Hsaved.
  - split_and!; [|intros _|done].
    + f_equal. rewrite Hx, existsb_sort, existsb_app. cbn [existsb].
      by rewrite (hasId_reread props1 x Hx), orb_true_r.
    + exists (VObj (omap reread props1)). split_and!; [apply sort_Permutation| |].
      * rewrite (Permutation_length (sort_Permutation _ _)), length_app, length_map.
        simpl. lia.
      * intros name Hname. rewrite field_reread. f_equal.
        unfold props1, field. destruct hit; [|done].
        by rewrite lookup_insert_ne.
  - split_and!; [done|done|]. intros _. split; [|done].
    cbn [validateEntries]. rewrite map_app, forallb_app.
    rewrite forallb_validateEntry_reread by apply collection_valid.
    cbn [map forallb]. change (reread_element (VObj props1)) with (VObj (omap reread props1)).
    rewrite (validateEntry_written _ Hv1), Hf1, andb_true_r, andb_comm. exact Hsaved.
Qed.

(** X1: on the device, [saveEntry] of a valid entry returns [true] exactly
    when the latitude, longitude and createdAt of the entry and of every
    entry of the stored collection are finite, whether the id of the entry
    is taken or not.  When it returns [true] the collection is the round
    trip of the former one with one entry more, whose fields other than the
    id are the round trip of those of the entry; when it returns [false]
    the array it has written fails [validateEntries] and the collection
    reads as empty from then on.  On a settled collection the numbers of the
    stored entries are finite, and it returns [true] exactly when those of
    the entry are. *)
Theorem X1_saveEntry_outcome (s : state device) (l : ref) (e : value) :
  heap s !! l = Some e ->
  validateEntry e = true ->
  let saved := finiteNumbers e && forallb finiteNumbers (collection (world s)) in
  result (saveEntry l) s = Ret saved
  /\ (saved = true ->
      exists e',
        Permutation (collection (world (after (saveEntry l) s)))
                    (map reread_element (collection (world s)) ++ [e'])
        /\ length (collection (world (after (saveEntry l) s)))
           = S (length (collection (world s)))
        /\ (forall name, name <> "id" ->
                         field e' name = reread_field (field e name)))
  /\ (saved = false ->
      validateEntries (VArr (persisted (world (after (saveEntry l) s)))) = false
      /\ collection (world (after (saveEntry l) s)) = [])
  /\ (settled (world s) -> saved = finiteNumbers e).
Proof.
  intros Hl He saved.
  destruct (saveEntry_outcome s l e Hl He) as (Hres & Htrue & Hfalse).
  split_and!; [exact Hres|exact Htrue|exact Hfalse|].
  intros Hs. unfold saved. by rewrite (settled_finiteNumbers _ Hs), andb_true_r.
Qed.

Lemma X1_saveEntry_outcome_witness :
  result (saveEntry 1%nat) scenario_start = Ret true
  /\ result (saveEntry 1%nat) nan_start = Ret false
  /\ collection (world (after (saveEntry 1%nat) nan_start)) = []
  /\ result (saveEntry 1%nat) overflow_start = Ret false.
Proof.
  destruct (X1_saveEntry_outcome scenario_start 1%nat entry_a) as (Hr & _ & _);
    [reflexivity|reflexivity|].
  destruct (X1_saveEntry_outcome nan_start 1%nat entry_nan) as (Hr' & _ & Hempty & _);
    [reflexivity|reflexivity|].
  destruct (X1_saveEntry_outcome overflow_start 1%nat entry_a) as (Hr'' & _);
    [reflexivity|reflexivity|].
  split_and!; [exact Hr|exact Hr'|apply Hempty; reflexivity|exact Hr''].
Defined.

(** ** Removing an entry that is there (X2) *)

Lemma existsb_hasId_filter (id : value) (xs : list value) :
  existsb (hasId id) (filter (fun e => negb (hasId id e) = true) xs) = false.
Proof.
  induction xs as [|x xs IH]; [done|].
  rewrite filter_cons. destruct (decide (negb (hasId id x) = true)) as [Hx|Hx]; [|done].
  simpl. rewrite IH. by destruct (hasId id x).
Qed.

Lemma Forall_filter_keep (P Q : value -> Prop) `{forall x, Decision (Q x)}
    (xs : list value) :
  Forall P xs -> Forall P (filter Q xs).
Proof.
  intros HP. apply Forall_forall. intros x [_ Hx]%list_elem_of_filter.
  rewrite Forall_forall in HP. by apply HP.
Qed.

(** [removeEntry] on the device, for an id that is there. *)
Lemma removeEntry_device_present (s : state device) (x : string) :
  settled (world s) ->
  x <> "" ->
  VStr x ∈ ids (collection (world s)) ->
  let kept := filter (fun e => negb (hasId (VStr x) e) = true) (collection (world s)) in
  removeEntry (VStr x) s
  = (Ret true, State (heap s) (write ENTRIES (JSON_stringify (VArr kept)) (world s)))
  /\ collection (write ENTRIES (JSON_stringify (VArr kept)) (world s)) = kept.
Proof.
  intros Hs Hx Hin kept. apply existsb_hasId in Hin.
  assert (collection (write ENTRIES (JSON_stringify (VArr kept)) (world s)) = kept)
    as Hkept.
  { rewrite collection_write, decoded_stable.
    - apply sort_of_sorted, StronglySorted_filter, collection_sorted.
    - apply Forall_filter_keep, collection_valid.
    - by apply Forall_filter_keep, collection_reread. }
  split; [|done].
  unfold removeEntry. apply try_catch_Ret.
  assert (falsy (VStr x) || negb (String.eqb (typeof (VStr x)) "string") = false) as ->.
  { simpl. destruct x; [done|reflexivity]. }
  step. step_with ltac:(apply getEntries_device).
  rewrite Hin. cbn [negb]. fold kept.
  step. step_with ltac:(apply getEntries_device).
  cbn [heap world AsyncStorage_setItem device_platform fst snd].
  rewrite Hkept. unfold kept. rewrite existsb_hasId_filter. reflexivity.
Qed.

(** X2: on the device, [removeEntry] of a non-empty string id that occurs
    in a settled collection returns [true]; the collection is then the
    former one without the entries of that id, in the same order,
    [getEntryById] of the id returns [null], and the objects of the caller
    are as they were. *)
Theorem X2_removeEntry_present (s : state device) (x : string) :
  settled (world s) ->
  x <> "" ->
  VStr x ∈ ids (collection (world s)) ->
  result (removeEntry (VStr x)) s = Ret true
  /\ collection (world (after (removeEntry (VStr x)) s))
     = filter (fun e => negb (hasId (VStr x) e) = true) (collection (world s))
  /\ (VStr x ∉ ids (collection (world (after (removeEntry (VStr x)) s))))
  /\ result (getEntryById (VStr x)) (after (removeEntry (VStr x)) s) = Ret VNull
  /\ heap (after (removeEntry (VStr x)) s) = heap s.
Proof.
  intros Hs Hx Hin.
  destruct (removeEntry_device_present s x Hs Hx Hin) as [Hrun Hkept].
  cbv zeta in Hrun, Hkept.
  set (kept := filter (fun e => negb (hasId (VStr x) e) = true) (collection (world s)))
    in *.
  unfold result, after. rewrite Hrun. cbn [fst snd heap world].
  rewrite getEntryById_device. cbn [fst world]. rewrite Hkept.
  assert (existsb (hasId (VStr x)) kept = false) as Hgone
    by apply existsb_hasId_filter.
  split_and!; try done.
  - by apply not_existsb_hasId.
  - clear Hkept Hrun. induction kept as [|y ys IH]; [done|].
    simpl in *. apply orb_false_iff in Hgone as [-> Hys]. by apply IH.
Qed.

Lemma X2_removeEntry_present_witness :
  let s2 := saveAll [1; 2]%nat scenario_start in
  result (removeEntry (VStr "a")) s2 = Ret true
  /\ ids (collection (world (after (removeEntry (VStr "a")) s2)))
     = [VStr "entry_rs_k2j4h5g6f"].
Proof.
  cbv zeta.
  assert (settled (world (saveAll [1; 2]%nat scenario_start)))
    as Hs by (vm_compute; reflexivity).
  assert ("a" <> "") as Hx by discriminate.
  assert (VStr "a" ∈ ids (collection (world (saveAll [1; 2]%nat scenario_start))))
    as Hin by (apply existsb_hasId; vm_compute; reflexivity).
  destruct (X2_removeEntry_present _ "a" Hs Hx Hin) as (Hres & Hcol & _).
  split; [exact Hres|]. rewrite Hcol. vm_compute. reflexivity.
Defined.

(** The condition on the collection is needed: with two entries stored,
    one of which carries an infinite [createdAt] (the literal [1e999]),
    removing the other returns [true], and the collection, which should
    hold the first, reads as empty. *)
Example removeEntry_overflow_stored :
  ids (collection (world overflow_pair_start)) = [VStr "y"; VStr "a"]
  /\ result (removeEntry (VStr "a")) overflow_pair_start = Ret true
  /\ collection (world (after (removeEntry (VStr "a")) overflow_pair_start)) = [].
Proof. vm_compute. split_and!; reflexivity. Qed.

(** ** Updating an entry that is there (X3) *)

Lemma findIndex_found (p : value -> bool) (xs : list value) :
  existsb p xs = true ->
  exists (n : nat) (x : value),
    findIndex p xs = Z.of_nat n /\ xs !! n = Some x /\ p x = true
    /\ (forall (m : nat) (y : value), (m < n)%nat -> xs !! m = Some y -> p y = false).
Proof.
  induction xs as [|y ys IH]; simpl; [done|].
  destruct (p y) eqn:Hy.
  - intros _. exists O, y. split_and!; [done|done|done|]. intros m z Hm. lia.
  - simpl. intros Hys. destruct (IH Hys) as (n & x & Hn & Hx & Hp & Hfirst).
    exists (S n), x. rewrite Hn.
    replace (Z.of_nat n =? -1) with false by (symmetry; apply Z.eqb_neq; lia).
    split_and!; [lia|done|done|].
    intros [|m] z Hm Hz; simpl in Hz; [congruence|].
    apply (Hfirst m); [lia|done].
Qed.

Lemma map_list_insert (f : value -> value) (n : nat) (x : value) (xs : list value) :
  map f (<[n := x]> xs) = <[n := f x]> (map f xs).
Proof. apply (list_fmap_insert f xs n x). Qed.

(** X3: on the device, [updateEntry] of a valid entry with finite numbers
    whose id occurs in a settled collection returns [true].  The first
    entry of that id in the collection (no entry before it has the id) is
    replaced by the round trip of the new one, no other entry changes, the
    collection keeps its length and is sorted again, and the object of the
    caller is as it was. *)
Theorem X3_updateEntry_present (s : state device) (l : ref) (e : value) :
  settled (world s) ->
  heap s !! l = Some e ->
  validateEntry e = true ->
  finiteNumbers e = true ->
  field e "id" ∈ ids (collection (world s)) ->
  exists (n : nat) (old e' : value),
    collection (world s) !! n = Some old
    /\ field old "id" = field e "id"
    /\ (forall (m : nat) (y : value),
          (m < n)%nat -> collection (world s) !! m = Some y ->
          field y "id" <> field e "id")
    /\ reread e = Some e'
    /\ result (updateEntry l) s = Ret true
    /\ collection (world (after (updateEntry l) s))
       = sort byCreatedAtDesc (<[n := e']> (collection (world s)))
    /\ length (collection (world (after (updateEntry l) s)))
       = length (collection (world s))
    /\ heap (after (updateEntry l) s) = heap s.
Proof.
  intros Hs Hl He Hfin Hin.
  destruct (validateEntry_object e He) as [props ->].
  destruct (validateEntry_id _ He) as [id Hid]. rewrite Hid in *.
  apply existsb_hasId in Hin.
  destruct (findIndex_found _ _ Hin) as (n & old & Hn & Hold & Hp & Hfirst).
  exists n, old, (VObj (omap reread props)).
  set (e' := VObj (omap reread props)).
  set (xs := collection (world s)) in *.
  assert (validateEntry e' = true) as He' by (by apply validateEntry_reread).
  assert (n < length xs)%nat as Hlt by (by eapply lookup_lt_Some).
  assert (collection (write ENTRIES (JSON_stringify (VArr (<[n := VObj props]> xs)))
                            (world s))
          = sort byCreatedAtDesc (<[n := e']> xs)) as Hcol.
  { rewrite collection_write, decoded_mapped, map_list_insert.
    rewrite (map_reread_stable xs) by (by apply collection_reread).
    change (reread_element (VObj props)) with e'.
    rewrite forallb_validateEntry; [done|].
    apply Forall_insert; [apply collection_valid|done]. }
  assert (existsb (fun x => strict_equal (field x "id") (VStr id)
                            && strict_equal (field x "createdAt")
                                            (field (VObj props) "createdAt"))
                  (sort byCreatedAtDesc (<[n := e']> xs)) = true) as Hverified.
  { rewrite existsb_sort. apply existsb_exists. exists e'. split.
    - apply list_elem_of_In, list_elem_of_lookup. exists n.
      by apply list_lookup_insert_eq.
    - unfold e'. rewrite (field_id_reread props id Hid), strict_equal_string.
      rewrite field_reread.
      destruct (validateEntry_createdAt _ He) as [c Hc]. rewrite Hc.
      unfold finiteNumbers in Hfin. cbn [forallb] in Hfin.
      rewrite Hc, !andb_true_iff in Hfin. destruct Hfin as (_ & _ & Hfc & _).
      destruct c as [z| | |]; try discriminate. simpl. apply Z.eqb_refl. }
  assert (updateEntry l s =
          (Ret true,
           State (heap s)
                 (write ENTRIES (JSON_stringify (VArr (<[n := VObj props]> xs)))
                        (world s)))) as Hrun.
  { unfold updateEntry. apply try_catch_Ret.
    step_with ltac:(by apply deref_Some).
    rewrite He. cbn [negb]. step.
    step_with ltac:(apply getEntries_device).
    step_with ltac:(by apply deref_Some).
    rewrite Hid. fold xs. rewrite Hn.
    replace (Z.of_nat n =? -1) with false by (symmetry; apply Z.eqb_neq; lia).
    step_with ltac:(by apply deref_Some).
    rewrite Nat2Z.id.
    step. step_with ltac:(apply getEntries_device).
    erewrite bind_Ret by (apply deref_Some; exact Hl).
    cbn [heap world AsyncStorage_setItem device_platform fst snd].
    rewrite Hcol, Hid, Hverified. reflexivity. }
  unfold result, after. rewrite Hrun. cbn [fst snd heap world]. rewrite Hcol.
  split_and!; try done.
  - by apply strict_equal_eq.
  - intros m y Hm Hy Hsame. specialize (Hfirst m y Hm Hy).
    unfold hasId in Hfirst. rewrite Hsame in Hfirst.
    by rewrite strict_equal_string in Hfirst.
  - by rewrite (Permutation_length (sort_Permutation _ _)), length_insert.
Qed.

Lemma X3_updateEntry_present_witness :
  let s3 := saveAll [1; 2; 3]%nat clash_start in
  ids (collection (world s3))
  = [VStr "entry_rs_k2j4h5g6f"; VStr "a"; VStr "entry_rs_k2j4h5g6f"]
  /\ result (updateEntry 4%nat) s3 = Ret true
  /\ length (collection (world (after (updateEntry 4%nat) s3))) = 3%nat
  /\ map (fun x => field x "imageUri") (collection (world (after (updateEntry 4%nat) s3)))
     = [VStr "u3"; VStr "u"; VStr "u0"].
Proof.
  cbv zeta.
  assert (settled (world (saveAll [1; 2; 3]%nat clash_start)))
    as Hs by (vm_compute; reflexivity).
  assert (heap (saveAll [1; 2; 3]%nat clash_start) !! 4%nat = Some entry_g2)
    as Hl by (vm_compute; reflexivity).
  assert (validateEntry entry_g2 = true) as He by reflexivity.
  assert (finiteNumbers entry_g2 = true) as Hfin by reflexivity.
  assert (field entry_g2 "id"
          ∈ ids (collection (world (saveAll [1; 2; 3]%nat clash_start))))
    as Hin by (apply existsb_hasId; vm_compute; reflexivity).
  destruct (X3_updateEntry_present _ 4%nat entry_g2 Hs Hl He Hfin Hin)
    as (n & old & e' & _ & _ & _ & _ & Hres & _ & Hlen & _).
  split_and!; [vm_compute; reflexivity|exact Hres|rewrite Hlen; vm_compute; reflexivity
              |vm_compute; reflexivity].
Defined.

(** ** Clearing, the keys of the others, and settled collections (X4, X5, X20) *)

(** X4: on the device, whatever the entries key holds, [clearAllEntries]
    returns [true], removes the key, and [getEntries] and [getEntryCount]
    then return the empty list and 0. *)
Theorem X4_clearAllEntries_empties (s : state device) :
  result clearAllEntries s = Ret true
  /\ disk (world (after clearAllEntries s)) !! ENTRIES = None
  /\ result getEntries (after clearAllEntries s) = Ret []
  /\ result getEntryCount (after clearAllEntries s) = Ret 0
  /\ heap (after clearAllEntries s) = heap s.
Proof.
  assert (collection (erase ENTRIES (world s)) = []) as Hcol.
  { unfold collection, erase. cbn [disk]. by rewrite lookup_delete_eq. }
  assert (clearAllEntries s = (Ret true, State (heap s) (erase ENTRIES (world s))))
    as Hrun.
  { unfold clearAllEntries. apply try_catch_Ret.
    step. step_with ltac:(apply getEntries_device).
    cbn [heap world AsyncStorage_removeItem device_platform fst snd].
    by rewrite Hcol. }
  unfold result, after. rewrite Hrun. cbn [fst snd heap world].
  split_and!; try done.
  - unfold erase. cbn [disk]. apply lookup_delete_eq.
  - rewrite getEntries_device. cbn [fst world]. by rewrite Hcol.
  - unfold getEntryCount.
    erewrite try_catch_Ret; [reflexivity|].
    step_with ltac:(apply getEntries_device). cbn [world]. by rewrite Hcol.
Qed.

(** A relation between the device before and after, kept by each call of
    an operation. *)
Section Keeps.

Variable R : device -> device -> Prop.
Hypothesis R_refl : forall d, R d d.
Hypothesis R_trans : forall d1 d2 d3, R d1 d2 -> R d2 d3 -> R d1 d3.

Lemma keeps_ret {A} (a : A) : keeps R (ret a).
Proof. intros s. apply R_refl. Qed.

Lemma keeps_throw {A} (e : exn) : keeps R (@throw device A e).
Proof. intros s. apply R_refl. Qed.

Lemma keeps_deref (l : ref) : keeps R (deref l).
Proof. intros s. apply R_refl. Qed.

Lemma keeps_assign (l : ref) (name : string) (x : value) : keeps R (assign l name x).
Proof. intros s. apply R_refl. Qed.

Lemma keeps_bind {A B} (m : M device A) (k : A -> M device B) :
  keeps R m -> (forall a, keeps R (k a)) -> keeps R (bind m k).
Proof.
  intros Hm Hk s. specialize (Hm s). unfold after, bind in *.
  destruct (m s) as [[a|e] s'] eqn:Hms; simpl in *; [|done].
  eapply R_trans; [exact Hm|]. apply (Hk a s').
Qed.

Lemma keeps_try_catch {A} (m : M device A) (h : exn -> M device A) :
  keeps R m -> (forall e, keeps R (h e)) -> keeps R (try_catch m h).
Proof.
  intros Hm Hh s. specialize (Hm s). unfold after, try_catch in *.
  destruct (m s) as [[a|e] s'] eqn:Hms; simpl in *; [done|].
  eapply R_trans; [exact Hm|]. apply (Hh e s').
Qed.

Lemma keeps_if {A} (b : bool) (m1 m2 : M device A) :
  keeps R m1 -> keeps R m2 -> keeps R (if b then m1 else m2).
Proof. by destruct b. Qed.

Hypothesis R_write : forall v d, R d (write ENTRIES (JSON_stringify v) d).
Hypothesis R_erase : forall d, R d (erase ENTRIES d).
Hypothesis R_tick : forall d, R d (tick d).
Hypothesis R_roll : forall d, R d (roll d).

Lemma keeps_getEntries : keeps R getEntries.
Proof. intros s. unfold after. rewrite getEntries_device. apply R_refl. Qed.

Lemma keeps_setItem (v : value) : keeps R (setItem ENTRIES (JSON_stringify v)).
Proof. intros s. apply R_write. Qed.

Lemma keeps_removeItem : keeps R (removeItem ENTRIES).
Proof. intros s. apply R_erase. Qed.

Lemma keeps_now : keeps R now.
Proof. intros s. apply R_tick. Qed.

Lemma keeps_random36 : keeps R random36.
Proof. intros s. apply R_roll. Qed.

Ltac keeps_step :=
  first [ apply keeps_getEntries | apply keeps_setItem | apply keeps_removeItem
        | apply keeps_now | apply keeps_random36 | apply keeps_deref
        | apply keeps_assign | apply keeps_ret | apply keeps_throw
        | apply keeps_if | apply keeps_bind | apply keeps_try_catch ].

Lemma keeps_saveEntry (l : ref) : keeps R (saveEntry l).
Proof. unfold saveEntry. repeat (intros; keeps_step). Qed.

Lemma keeps_getEntryById (id : value) : keeps R (getEntryById id).
Proof. unfold getEntryById. repeat (intros; keeps_step). Qed.

Lemma keeps_removeEntry (id : value) : keeps R (removeEntry id).
Proof. unfold removeEntry. repeat (intros; keeps_step). Qed.

Lemma keeps_updateEntry (l : ref) : keeps R (updateEntry l).
Proof. unfold updateEntry. repeat (intros; keeps_step). Qed.

Lemma keeps_clearAllEntries : keeps R clearAllEntries.
Proof. unfold clearAllEntries. repeat (intros; keeps_step). Qed.

Lemma keeps_getEntryCount : keeps R getEntryCount.
Proof. unfold getEntryCount. repeat (intros; keeps_step). Qed.

End Keeps.

Lemma same_elsewhere_refl (d : device) : same_elsewhere d d.
Proof. by intros key _. Qed.

Lemma same_elsewhere_trans (d1 d2 d3 : device) :
  same_elsewhere d1 d2 -> same_elsewhere d2 d3 -> same_elsewhere d1 d3.
Proof. intros H12 H23 key Hkey. by rewrite H23, H12. Qed.

Lemma same_elsewhere_write (t : text) (d : device) :
  same_elsewhere d (write ENTRIES t d).
Proof. intros key Hkey. unfold write. cbn [disk]. by apply lookup_insert_ne. Qed.

Lemma same_elsewhere_erase (d : device) : same_elsewhere d (erase ENTRIES d).
Proof. intros key Hkey. unfold erase. cbn [disk]. by apply lookup_delete_ne. Qed.

(** X5: on the device, no operation of the store touches a key other than
    the entries key: what the backend holds under the theme, the launch
    flag or any other key is the same after [saveEntry], [updateEntry],
    [removeEntry], [clearAllEntries] and the three reads, whatever their
    arguments and their outcome.  The three reads leave the whole state as
    it was. *)
Theorem X5_other_keys_untouched (s : state device) (key : string) :
  key <> ENTRIES ->
  (forall l, disk (world (after (saveEntry l) s)) !! key = disk (world s) !! key)
  /\ (forall l, disk (world (after (updateEntry l) s)) !! key = disk (world s) !! key)
  /\ (forall id, disk (world (after (removeEntry id) s)) !! key = disk (world s) !! key)
  /\ disk (world (after clearAllEntries s)) !! key = disk (world s) !! key
  /\ after getEntries s = s
  /\ (forall id, after (getEntryById id) s = s)
  /\ after getEntryCount s = s.
Proof.
  intros Hkey.
  pose proof same_elsewhere_refl as Hr. pose proof same_elsewhere_trans as Ht.
  pose proof (fun v => same_elsewhere_write (JSON_stringify v)) as Hw.
  pose proof same_elsewhere_erase as He.
  assert (forall d, same_elsewhere d (tick d)) as Htick by (by intros d k _).
  assert (forall d, same_elsewhere d (roll d)) as Hroll by (by intros d k _).
  split_and!.
  - intros l. by apply (keeps_saveEntry same_elsewhere Hr Ht Hw Htick Hroll l s).
  - intros l. by apply (keeps_updateEntry same_elsewhere Hr Ht Hw l s).
  - intros id. by apply (keeps_removeEntry same_elsewhere Hr Ht Hw id s).
  - by apply (keeps_clearAllEntries same_elsewhere Hr Ht He s).
  - unfold after. by rewrite getEntries_device.
  - intros id. unfold after. by rewrite getEntryById_device.
  - unfold after, getEntryCount.
    erewrite try_catch_Ret; [reflexivity|].
    by step_with ltac:(apply getEntries_device).
Qed.

Lemma X5_other_keys_untouched_witness :
  disk (world (after clearAllEntries settings_start)) !! THEME = Some Garbled
  /\ disk (world (after (saveEntry 2%nat) settings_start)) !! APP_OPENED_COUNT
     = Some (JSON_stringify (VNum (Fin 7))).
Proof.
  assert (THEME <> ENTRIES) as Ht by discriminate.
  assert (APP_OPENED_COUNT <> ENTRIES) as Hc by discriminate.
  destruct (X5_other_keys_untouched settings_start THEME Ht) as (_ & _ & _ & Hclear & _).
  destruct (X5_other_keys_untouched settings_start APP_OPENED_COUNT Hc) as (Hsave & _).
  split; [rewrite Hclear|rewrite Hsave]; reflexivity.
Defined.

(** X20: that the collection is settled is an invariant of the store on
    the device.  The collection of a new device is settled; no operation
    makes a settled collection unsettled; and once [saveEntry], [updateEntry]
    or [removeEntry] has returned [true], or [clearAllEntries] has run, the
    collection is settled whatever the entries key held before. *)
Theorem X20_settled_invariant (s : state device) :
  (forall c r, settled (fresh c r))
  /\ (settled (world s) ->
      (forall l, settled (world (after (saveEntry l) s)))
      /\ (forall l, settled (world (after (updateEntry l) s)))
      /\ (forall id, settled (world (after (removeEntry id) s))))
  /\ (forall l, result (saveEntry l) s = Ret true ->
                settled (world (after (saveEntry l) s)))
  /\ (forall l, result (updateEntry l) s = Ret true ->
                settled (world (after (updateEntry l) s)))
  /\ (forall id, result (removeEntry id) s = Ret true ->
                 settled (world (after (removeEntry id) s)))
  /\ settled (world (after clearAllEntries s)).
Proof.
  set (R := fun d d' : device => settled d -> settled d').
  assert (forall d, R d d) as Hr by (intros d Hd; exact Hd).
  assert (forall d1 d2 d3, R d1 d2 -> R d2 d3 -> R d1 d3) as Ht
    by (intros d1 d2 d3 H12 H23 Hd; apply H23, H12, Hd).
  assert (forall v d, R d (write ENTRIES (JSON_stringify v) d)) as Hw
    by (intros v d _; apply settled_write).
  assert (forall d, R d (tick d)) as Htick by (intros d Hd; exact Hd).
  assert (forall d, R d (roll d)) as Hroll by (intros d Hd; exact Hd).
  split_and!.
  - apply settled_fresh.
  - intros Hs. split_and!.
    + intros l. by apply (keeps_saveEntry R Hr Ht Hw Htick Hroll l s).
    + intros l. by apply (keeps_updateEntry R Hr Ht Hw l s).
    + intros id. by apply (keeps_removeEntry R Hr Ht Hw id s).
  - intros l Hres.
    destruct (validateEntry (default VUndefined (heap s !! l))) eqn:Hv.
    + unfold after. rewrite (saveEntry_device s l _ (heap_valid s l Hv) Hv).
      apply settled_write.
    + unfold result in Hres. by rewrite saveEntry_invalid in Hres.
  - intros l. unfold result, after, updateEntry, try_catch, bind, deref, ret, throw.
    cbn [heap world]. destruct (negb (validateEntry _)); [done|].
    rewrite getEntries_device. cbn [heap world].
    destruct (findIndex _ _ =? -1); [done|].
    unfold setItem, lift. cbn [heap world AsyncStorage_setItem device_platform].
    rewrite getEntries_device. cbn [fst snd world]. intros _.
    destruct (negb _); apply settled_write.
  - intros id. unfold result, after, removeEntry, try_catch, bind, ret, throw.
    destruct (falsy id || _); [done|].
    rewrite getEntries_device. cbn [heap world].
    destruct (negb (existsb _ _)); [done|].
    unfold setItem, lift. cbn [heap world AsyncStorage_setItem device_platform].
    rewrite getEntries_device. cbn [fst snd world]. intros _.
    destruct (negb _); apply settled_write.
  - unfold after, clearAllEntries, try_catch, bind, removeItem, lift, ret.
    cbn [heap world AsyncStorage_removeItem device_platform].
    rewrite getEntries_device. cbn [heap world].
    destruct (0 <? _); apply settled_erase.
Qed.

Lemma X20_settled_invariant_witness :
  ~ settled (world overflow_pair_start)
  /\ settled (world (after (removeEntry (VStr "a")) overflow_pair_start))
  /\ settled (world (after (updateEntry 2%nat) (saveAll [1; 2]%nat scenario_start))).
Proof.
  destruct (X20_settled_invariant overflow_pair_start) as (_ & _ & _ & _ & Hremove & _).
  destruct (X20_settled_invariant (saveAll [1; 2]%nat scenario_start))
    as (_ & Hkept & _).
  assert (settled (world (saveAll [1; 2]%nat scenario_start)))
    as Hs by (vm_compute; reflexivity).
  assert (result (removeEntry (VStr "a")) overflow_pair_start = Ret true)
    as Hres by (vm_compute; reflexivity).
  destruct (Hkept Hs) as (_ & Hupdate & _).
  split_and!; [|by apply Hremove|apply Hupdate].
  unfold settled. vm_compute. discriminate.
Defined.

(** ** Arguments that are refused (X6) *)

(** X6: on every platform, an argument that fails the guard of an
    operation is refused before any call of the backend: [saveEntry] and
    [updateEntry] of an object that fails [validateEntry], and
    [removeEntry] of an id that is empty or is not a string, return
    [false] and leave the state, backend included, as it was.  In
    particular an entry saved under the empty id, which [validateEntry]
    accepts, cannot be removed. *)
Theorem X6_refused_arguments {W : Type} `{Platform W} (s : state W) :
  (forall l, validateEntry (default VUndefined (heap s !! l)) = false ->
             saveEntry l s = (Ret false, s) /\ updateEntry l s = (Ret false, s))
  /\ (forall id, falsy id = true \/ typeof id <> "string" ->
                 removeEntry id s = (Ret false, s)).
Proof.
  split.
  - intros l He. split.
    + unfold saveEntry. erewrite try_catch_Throw; [reflexivity|].
      erewrite bind_Ret by reflexivity. by rewrite He.
    + unfold updateEntry. erewrite try_catch_Throw; [reflexivity|].
      erewrite bind_Ret by reflexivity. by rewrite He.
  - intros id Hid. unfold removeEntry.
    erewrite try_catch_Throw; [reflexivity|].
    replace (falsy id || negb (String.eqb (typeof id) "string")) with true;
      [reflexivity|].
    symmetry. apply orb_true_iff. destruct Hid as [Hf|Ht]; [by left|right].
    apply negb_true_iff. by apply String.eqb_neq.
Qed.

Lemma X6_refused_arguments_witness :
  let s1 := after (saveEntry 1%nat) noid_start in
  result (saveEntry 1%nat) noid_start = Ret true
  /\ ids (collection (world s1)) = [VStr ""]
  /\ removeEntry (VStr "") s1 = (Ret false, s1)
  /\ saveEntry 5%nat s1 = (Ret false, s1).
Proof.
  cbv zeta.
  destruct (X6_refused_arguments (after (saveEntry 1%nat) noid_start))
    as (Hsave & Hremove).
  split_and!.
  - vm_compute. reflexivity.
  - vm_compute. reflexivity.
  - apply Hremove. left. reflexivity.
  - apply Hsave. reflexivity.
Defined.

(** ** What the reads return (X7, X8) *)

Lemma validateEntry_wellFormed (x : value) :
  validateEntry x = true ->
  (forall name n, field x name = VNum n -> n <> NaN) ->
  wellFormed x.
Proof.
  intros Hv Hx. destruct (validateEntry_object x Hv) as [props ->].
  pose proof Hv as (_ & Hreq & _)%validateEntry_true.
  cbn [forallb requiredFields fst snd] in Hreq. rewrite !andb_true_iff in Hreq.
  destruct Hreq as (H1 & H2 & H3 & H4 & H5 & H6 & _).
  assert (forall name, String.eqb (typeof (field (VObj props) name)) "number" = true ->
            exists n, field (VObj props) name = VNum n /\ n <> NaN) as Hnum.
  { intros name Hn. specialize (Hx name).
    destruct (field (VObj props) name) as [| | |n| | |]; try discriminate.
    exists n. split; [done|]. by apply Hx. }
  assert (forall name, String.eqb (typeof (field (VObj props) name)) "string" = true ->
            exists z, field (VObj props) name = VStr z) as Hstr.
  { intros name Hn. destruct (field (VObj props) name); try discriminate; eauto. }
  unfold wellFormed. split_and!; eauto.
Qed.

(** X7: on every platform and whatever the backend holds, every entry that
    [getEntries] returns is an object whose id, imageUri and address are
    strings and whose latitude, longitude and createdAt are numbers other
    than [NaN] (finite, or an infinity when the text holds a literal beyond
    the range of a double), and it passes [validateEntry]. *)
Theorem X7_getEntries_wellFormed {W : Type} `{Platform W} (s : state W) :
  exists xs,
    result getEntries s = Ret xs
    /\ Forall wellFormed xs
    /\ Forall (fun x => validateEntry x = true) xs.
Proof.
  eexists. unfold result. rewrite getEntries_read. cbn [fst].
  split; [reflexivity|].
  pose proof (decoded_valid (AsyncStorage_getItem ENTRIES (world s)).1) as Hv.
  split; [|by apply Forall_sort].
  apply Forall_sort, Forall_forall. intros x Hx.
  rewrite Forall_forall in Hv. apply validateEntry_wellFormed; [auto|].
  intros name.
  pose proof (decoded_no_NaN (AsyncStorage_getItem ENTRIES (world s)).1 name) as Hn.
  rewrite Forall_forall in Hn. by apply Hn.
Qed.

(** The infinity is met: the entry that [getEntries] returns from a text
    whose [createdAt] is the literal [1e999]. *)
Example getEntries_overflow :
  exists x, result getEntries overflow_start = Ret [x]
            /\ validateEntry x = true
            /\ field x "createdAt" = VNum PosInf.
Proof. eexists. vm_compute. split_and!; reflexivity. Qed.

Lemma find_cases (p : value -> bool) (xs : list value) :
  (existsb p xs = false /\ find p xs = VUndefined)
  \/ (existsb p xs = true /\ find p xs ∈ xs /\ p (find p xs) = true).
Proof.
  induction xs as [|x xs IH]; simpl; [by left|].
  destruct (p x) eqn:Hx; simpl.
  - right. split_and!; [done|by left|done].
  - destruct IH as [[? ?]|(? & ? & ?)]; [by left|right].
    split_and!; [done|by right|done].
Qed.

(** X8: on every platform, [getEntryById] returns [null] when no entry of
    the list that [getEntries] returns has the id, and otherwise an entry
    of that list, valid, whose id is the one asked for. *)
Theorem X8_getEntryById_cases {W : Type} `{Platform W} (s : state W) (id : value) :
  exists xs,
    result getEntries s = Ret xs
    /\ ((existsb (hasId id) xs = false /\ result (getEntryById id) s = Ret VNull)
        \/ (exists x, x ∈ xs /\ field x "id" = id /\ validateEntry x = true
                      /\ result (getEntryById id) s = Ret x)).
Proof.
  set (xs := sort byCreatedAtDesc (decoded (AsyncStorage_getItem ENTRIES (world s)).1)).
  assert (Forall (fun x => validateEntry x = true) xs) as Hv
    by apply Forall_sort, decoded_valid.
  exists xs. split; [unfold result; by rewrite getEntries_read|].
  assert (result (getEntryById id) s
          = Ret (if falsy (find (hasId id) xs) then VNull else find (hasId id) xs))
    as Hget.
  { unfold result, getEntryById.
    erewrite try_catch_Ret; [reflexivity|].
    by erewrite bind_Ret by apply getEntries_read. }
  destruct (find_cases (hasId id) xs) as [[Hno Hf]|(Hyes & Hin & Hp)].
  - left. split; [done|]. by rewrite Hget, Hf.
  - right. exists (find (hasId id) xs).
    rewrite Forall_forall in Hv. pose proof (Hv _ Hin) as Hvalid.
    split_and!; [done|by apply strict_equal_eq|done|].
    rewrite Hget. destruct (validateEntry_object _ Hvalid) as [props ->]. done.
Qed.

(** ** Saving, then removing (X9) *)

(** Filtering a sorted list and inserting into it, in either order. *)
Lemma filter_sort_insert (p : value -> bool) (x : value) (xs : list value) :
  p x = true ->
  (exists n, field x "createdAt" = VNum n /\ n <> NaN) ->
  Forall (fun y => exists n, field y "createdAt" = VNum n /\ n <> NaN) xs ->
  StronglySorted createdAt_desc xs ->
  filter (fun e => p e = true) (sort_insert byCreatedAtDesc x xs)
  = sort_insert byCreatedAtDesc x (filter (fun e => p e = true) xs).
Proof.
  intros Hp (nx & Hzx & Hnx) Hnum Hsorted.
  induction Hsorted as [|y ys Hys IH Hy]; simpl.
  - rewrite filter_cons, Hp. by rewrite decide_True.
  - inversion Hnum as [|? ? (ny & Hzy & Hny) Hnum']; subst.
    destruct (positive_number (byCreatedAtDesc x y)) eqn:Hcmp.
    + rewrite !filter_cons. destruct (decide (p y = true)); [|by apply IH].
      simpl. by rewrite Hcmp, IH.
    + rewrite (filter_cons _ x), decide_True by done.
      destruct (filter (fun e => p e = true) (y :: ys)) as [|w ws] eqn:Hf; [done|].
      simpl. replace (positive_number (byCreatedAtDesc x w)) with false; [done|].
      symmetry.
      assert (w ∈ y :: ys) as Hw.
      { assert (w ∈ filter (fun e => p e = true) (y :: ys)) as Hw'
          by (rewrite Hf; by left).
        by apply list_elem_of_filter in Hw' as [_ ?]. }
      unfold byCreatedAtDesc in Hcmp. rewrite Hzx, Hzy in Hcmp. simpl in Hcmp.
      pose proof (positive_number_sub nx ny Hnx Hny) as Hle. rewrite Hcmp in Hle.
      apply elem_of_cons in Hw as [->|Hw].
      * unfold byCreatedAtDesc. by rewrite Hzx, Hzy.
      * rewrite Forall_forall in Hy.
        destruct (Hy _ Hw) as (u & v & Hu & Hv & Hvu).
        rewrite Hzy in Hu. injection Hu as <-.
        unfold byCreatedAtDesc. rewrite Hzx, Hv. simpl.
        apply number_le_not_positive. by eapply number_le_trans.
Qed.

Lemma sort_snoc (x : value) (xs : list value) :
  sort byCreatedAtDesc (xs ++ [x]) = foldr (sort_insert byCreatedAtDesc) [x] xs.
Proof. unfold sort. by rewrite foldr_app. Qed.

Lemma filter_sort_snoc (p : value -> bool) (x : value) (xs : list value) :
  p x = false ->
  Forall (fun y => p y = true) xs ->
  (exists n, field x "createdAt" = VNum n /\ n <> NaN) ->
  Forall (fun y => exists n, field y "createdAt" = VNum n /\ n <> NaN) xs ->
  StronglySorted createdAt_desc xs ->
  filter (fun e => p e = true) (sort byCreatedAtDesc (xs ++ [x])) = xs.
Proof.
  intros Hx Hp Hfx Hfin Hsorted. rewrite sort_snoc.
  induction Hsorted as [|y ys Hys IH Hy]; simpl.
  - rewrite filter_cons, decide_False; [done|congruence].
  - inversion Hp as [|? ? Hpy Hp']; subst.
    inversion Hfin as [|? ? Hfy Hfin']; subst.
    rewrite filter_sort_insert; try done.
    + rewrite IH by done.
      rewrite <- (sort_of_sorted ys) at 1 by done.
      change (sort_insert byCreatedAtDesc y (sort byCreatedAtDesc ys))
        with (sort byCreatedAtDesc (y :: ys)).
      apply sort_of_sorted. by constructor.
    + rewrite <- sort_snoc. apply Forall_sort, Forall_app. split; [done|].
      by repeat constructor.
    + rewrite <- sort_snoc. apply sort_sorted, Forall_app. split; [done|].
      by repeat constructor.
Qed.

(** X9: on the device, saving a valid entry with finite numbers under a
    new, non-empty id into a settled collection and then removing that id
    gives back the collection as it was before, entry for entry and in the
    same order; both calls return [true]. *)
Theorem X9_save_then_remove (s : state device) (l : ref) (e : value) (x : string) :
  settled (world s) ->
  heap s !! l = Some e ->
  validateEntry e = true ->
  finiteNumbers e = true ->
  field e "id" = VStr x ->
  x <> "" ->
  VStr x ∉ ids (collection (world s)) ->
  result (saveEntry l) s = Ret true
  /\ result (removeEntry (VStr x)) (after (saveEntry l) s) = Ret true
  /\ collection (world (after (removeEntry (VStr x)) (after (saveEntry l) s)))
     = collection (world s).
Proof.
  intros Hs Hl He Hfin Hid Hx Hnew.
  destruct (validateEntry_object e He) as [props ->].
  pose proof (saveEntry_device s l _ Hl He) as Hsave. cbv zeta in Hsave.
  rewrite Hid in Hsave. pose proof Hnew as Hmiss.
  apply not_existsb_hasId in Hmiss. rewrite Hmiss in Hsave.
  rewrite collection_written, (validateEntry_reread props He Hfin), Hid in Hsave
    by done.
  set (e' := VObj (omap reread props)) in *.
  set (xs := collection (world s)) in *.
  assert (hasId (VStr x) e' = true) as He' by (by apply hasId_reread).
  assert (existsb (hasId (VStr x)) (sort byCreatedAtDesc (xs ++ [e'])) = true) as Hin.
  { rewrite existsb_sort, existsb_app. simpl. by rewrite He', orb_true_r. }
  rewrite Hin in Hsave.
  set (s1 := after (saveEntry l) s).
  assert (collection (world s1) = sort byCreatedAtDesc (xs ++ [e'])) as Hcol1.
  { unfold s1, after. rewrite Hsave. cbn [snd world]. unfold xs.
    by rewrite collection_written, (validateEntry_reread props He Hfin). }
  assert (VStr x ∈ ids (collection (world s1))) as Hin1.
  { apply existsb_hasId. by rewrite Hcol1. }
  assert (settled (world s1)) as Hs1 by (by apply saveEntry_settled).
  destruct (removeEntry_device_present s1 x Hs1 Hx Hin1) as [Hrun Hkept].
  cbv zeta in Hrun, Hkept.
  split_and!.
  - unfold result. by rewrite Hsave.
  - unfold result. by rewrite Hrun.
  - unfold after at 1. rewrite Hrun. cbn [snd world]. rewrite Hkept, Hcol1.
    apply (filter_sort_snoc (fun y => negb (hasId (VStr x) y))).
    + by rewrite He'.
    + apply Forall_forall. intros y Hy. apply negb_true_iff.
      destruct (hasId (VStr x) y) eqn:Hyx; [exfalso|done].
      apply Hnew, existsb_hasId, existsb_exists. exists y.
      split; [by apply list_elem_of_In|done].
    + destruct (createdAt_finite e') as [z Hz]; [by apply validateEntry_reread| |].
      * unfold reread_element, e'. simpl.
        assert (reread (VObj (omap reread props)) = Some (VObj (omap reread props)))
          as Hidem by (by apply (reread_idempotent (VObj props))).
        simpl in Hidem. by injection Hidem as ->.
      * by exists (Fin z).
    + apply Forall_sort, decoded_createdAt.
    + apply collection_sorted.
Qed.

Lemma X9_save_then_remove_witness :
  let s1 := after (saveEntry 1%nat) clash_start in
  result (saveEntry 2%nat) s1 = Ret true
  /\ result (removeEntry (VStr "a")) (after (saveEntry 2%nat) s1) = Ret true
  /\ collection (world (after (removeEntry (VStr "a")) (after (saveEntry 2%nat) s1)))
     = collection (world s1).
Proof.
  cbv zeta.
  assert (settled (world (after (saveEntry 1%nat) clash_start)))
    as Hs by (vm_compute; reflexivity).
  assert (heap (after (saveEntry 1%nat) clash_start) !! 2%nat = Some entry_a)
    as Hl by (vm_compute; reflexivity).
  assert (validateEntry entry_a = true) as He by reflexivity.
  assert (finiteNumbers entry_a = true) as Hfin by reflexivity.
  assert (field entry_a "id" = VStr "a") as Hid by reflexivity.
  assert ("a" <> "") as Hx by discriminate.
  assert (VStr "a" ∉ ids (collection (world (after (saveEntry 1%nat) clash_start))))
    as Hnew by (apply not_existsb_hasId; vm_compute; reflexivity).
  exact (X9_save_then_remove _ 2%nat entry_a "a" Hs Hl He Hfin Hid Hx Hnew).
Defined.

(** * The screens that call the store *)

(** ** The home screen and its list (X10) *)

(** [removeEntry] on the device: it refuses and changes nothing, or the
    id is there and it is removed. *)
Lemma removeEntry_device_cases (s : state device) (id : value) :
  removeEntry id s = (Ret false, s)
  \/ (exists x, id = VStr x /\ x <> "" /\ VStr x ∈ ids (collection (world s))).
Proof.
  destruct (falsy id || negb (String.eqb (typeof id) "string")) eqn:Hguard.
  - left. unfold removeEntry. erewrite try_catch_Throw; [reflexivity|].
    by rewrite Hguard.
  - destruct id as [| | | |x| |]; simpl in Hguard;
      try (rewrite ?orb_true_r in Hguard; discriminate).
    destruct (existsb (hasId (VStr x)) (collection (world s))) eqn:Hin.
    + right. exists x. split_and!; [done| |by apply existsb_hasId].
      intros ->. discriminate.
    + left. unfold removeEntry. apply try_catch_Ret.
      assert (falsy (VStr x) || negb (String.eqb (typeof (VStr x)) "string") = false)
        as -> by exact Hguard.
      step. step_with ltac:(apply getEntries_device). by rewrite Hin.
Qed.

(** X10: on the device, the list of the home screen follows the store.
    [loadEntries] sets it to the stored collection; and when it is the
    stored collection, and that collection is settled, it is again the
    stored collection after the Delete button has run, for any id: either
    [removeEntry] returns [true] and the screen drops the entries of that
    id, as the store did, without an alert, or it returns [false], nothing
    changes on either side and one alert is shown. *)
Theorem X10_home_screen_follows_store (s : state device) (ui : homeScreen) (id : value) :
  (exists ui0, loadEntries ui s = (Ret ui0, s)
               /\ entries ui0 = collection (world s)
               /\ loading ui0 = false /\ alerts ui0 = alerts ui)
  /\ (entries ui = collection (world s) ->
      settled (world s) ->
      exists ui',
        result (confirmDelete id ui) s = Ret ui'
        /\ entries ui' = collection (world (after (confirmDelete id ui) s))
        /\ refreshing ui' = false
        /\ ((result (removeEntry id) s = Ret true /\ alerts ui' = alerts ui)
            \/ (result (removeEntry id) s = Ret false
                /\ alerts ui' = alerts ui ++ [("Error", "Failed to delete entry")]
                /\ after (confirmDelete id ui) s = s))).
Proof.
  split.
  - exists (HomeScreen (collection (world s)) false false (modalVisible ui)
                       (selectedEntry ui) (alerts ui)).
    split_and!; try reflexivity.
    unfold loadEntries, bind, try_catch. by rewrite getEntries_device.
  - intros Hui Hs.
    destruct (removeEntry_device_cases s id) as [Hrun|(x & -> & Hx & Hin)].
    + eexists. unfold result, after, confirmDelete.
      erewrite !bind_Ret by exact Hrun. unfold ret.
      cbn [fst snd entries refreshing alerts].
      split_and!; [reflexivity|done|done|].
      right. by rewrite Hrun.
    + destruct (removeEntry_device_present s x Hs Hx Hin) as [Hrun Hkept].
      cbv zeta in Hrun, Hkept.
      eexists. unfold result, after, confirmDelete.
      erewrite !bind_Ret by exact Hrun. unfold ret.
      cbn [fst snd entries refreshing alerts world].
      split_and!; [reflexivity| |done|].
      * by rewrite Hkept, Hui.
      * left. by rewrite Hrun.
Qed.

Lemma X10_home_screen_follows_store_witness :
  let s2 := saveAll [1; 2]%nat scenario_start in
  exists ui ui',
    result (loadEntries home_start) s2 = Ret ui
    /\ result (confirmDelete (VStr "a") ui) s2 = Ret ui'
    /\ ids (entries ui) = [VStr "entry_rs_k2j4h5g6f"; VStr "a"]
    /\ ids (entries ui') = [VStr "entry_rs_k2j4h5g6f"]
    /\ entries ui' = collection (world (after (confirmDelete (VStr "a") ui) s2)).
Proof.
  cbv zeta.
  assert (settled (world (saveAll [1; 2]%nat scenario_start)))
    as Hs by (vm_compute; reflexivity).
  destruct (X10_home_screen_follows_store (saveAll [1; 2]%nat scenario_start)
              home_start (VStr "a")) as [(ui & Hload & Hent & _) _].
  destruct (X10_home_screen_follows_store (saveAll [1; 2]%nat scenario_start)
              ui (VStr "a")) as [_ Hdelete].
  destruct (Hdelete Hent Hs) as (ui' & Hres & Hentries & _).
  exists ui, ui'. split_and!.
  - unfold result. by rewrite Hload.
  - exact Hres.
  - rewrite Hent. vm_compute. reflexivity.
  - rewrite Hentries. unfold after, confirmDelete.
    vm_compute. reflexivity.
  - exact Hentries.
Defined.

(** On a collection that is not settled the screen and the store part:
    after the Delete button the screen shows the entry with the infinite
    [createdAt], and the store reads as empty. *)
Example home_screen_overflow :
  let s := overflow_pair_start in
  exists ui ui',
    result (loadEntries home_start) s = Ret ui
    /\ result (confirmDelete (VStr "a") ui) s = Ret ui'
    /\ ids (entries ui') = [VStr "y"]
    /\ alerts ui' = []
    /\ collection (world (after (confirmDelete (VStr "a") ui) s)) = [].
Proof. do 2 eexists. vm_compute. split_and!; reflexivity. Qed.

(** ** The form and the entry it builds (X11, X12) *)

Lemma validateForm_None (trim : string -> string) (f : form) :
  validateForm trim f = None ->
  (exists uri, imageUri f = Some uri /\ uri <> "")
  /\ address f <> ""
  /\ (exists lat lon, location f = Some (lat, lon))
  /\ trim (title f) <> "".
Proof.
  unfold validateForm. intros Hf.
  destruct (imageUri f) as [[|c uri]|]; try discriminate.
  destruct (String.eqb (address f) "") eqn:Ha; [discriminate|].
  destruct (location f) as [[lat lon]|]; [|discriminate].
  destruct (String.eqb (trim (title f)) "") eqn:Ht; [discriminate|].
  apply String.eqb_neq in Ha, Ht. split_and!; eauto.
Qed.

Section CreateTravelEntry.

Context {W : Type} `{Platform W}.
Variable trim : string -> string.

(** X11: on every platform and for every [trim], when [validateForm]
    accepts the form, [createTravelEntry] returns, and the entry it returns
    passes [validateEntry]: its title is the trimmed title, which is not
    empty, its notes are the trimmed notes, or [undefined] when they are
    blank (the property is then left out of what is stored), and its three
    numbers are finite when the two coordinates are. *)
Theorem X11_form_entry_valid (f : form) (s : state W) :
  validateForm trim f = None ->
  exists e s',
    createTravelEntry trim f s = (Ret e, s')
    /\ validateEntry e = true
    /\ heap s' = heap s
    /\ field e "title" = VStr (trim (title f))
    /\ trim (title f) <> ""
    /\ field e "notes"
       = (if String.eqb (trim (notes f)) "" then VUndefined else VStr (trim (notes f)))
    /\ (trim (notes f) = "" ->
        forall e', reread e = Some e' -> field e' "notes" = VUndefined)
    /\ (forall lat lon, location f = Some (lat, lon) ->
                        finiteNumbers e = finite lat && finite lon).
Proof.
  intros Hf.
  destruct (validateForm_None trim f Hf)
    as ((uri & Huri & _) & _ & (lat & lon & Hloc) & Htitle).
  unfold createTravelEntry, generateId, bind, now, random36, lift, ret.
  rewrite Hloc, Huri.
  destruct (Date_now (world s)) as [t w1]. cbn [heap world].
  destruct (Math_random_toString36 w1) as [r w2]. cbn [heap world].
  destruct (Date_now w2) as [c w3]. cbn [heap world].
  eexists. eexists. split; [reflexivity|].
  split_and!; try done.
  - destruct (String.eqb (trim (notes f)) ""); reflexivity.
  - intros Hblank e' Hrr. rewrite Hblank in Hrr. simpl in Hrr.
    injection Hrr as <-. reflexivity.
  - intros lat' lon' [= <- <-]. unfold finiteNumbers.
    destruct (String.eqb (trim (notes f)) ""); cbn;
      by rewrite !andb_true_r.
Qed.

End CreateTravelEntry.

Lemma X11_form_entry_valid_witness :
  exists e s',
    createTravelEntry trimSpaces form_filled scenario_start = (Ret e, s')
    /\ validateEntry e = true
    /\ field e "title" = VStr "Sunset"
    /\ field e "notes" = VUndefined.
Proof.
  assert (validateForm trimSpaces form_filled = None) as Hf by reflexivity.
  destruct (X11_form_entry_valid trimSpaces form_filled scenario_start Hf)
    as (e & s' & Hrun & He & _ & Htitle & _ & Hnotes & _).
  exists e, s'. split_and!; [exact Hrun|exact He|exact Htitle|exact Hnotes].
Defined.

(** The objects of the caller other than the one saved are as they were
    after [saveEntry]. *)
Lemma saveEntry_heap_other (s : state device) (l r : ref) :
  r <> l -> heap (after (saveEntry l) s) !! r = heap s !! r.
Proof.
  intros Hr.
  destruct (validateEntry (default VUndefined (heap s !! l))) eqn:He.
  - pose proof (heap_valid s l He) as Hl.
    unfold after. rewrite (saveEntry_device s l _ Hl He). cbn [snd heap].
    case_match; [by apply lookup_insert_ne|done].
  - unfold after. by rewrite saveEntry_invalid.
Qed.

(** X12: on the device and for every [trim].  When [validateForm] refuses
    the form, [saveTravelEntry] ends with its alert and nothing has
    happened: no id drawn, no object made, nothing written.  When it
    accepts the form and the stored collection is settled,
    [saveTravelEntry] ends in Saved exactly when the two coordinates are
    finite; the collection then has one entry more, which carries the
    trimmed title and the image and address of the form, and the objects
    the caller held are as they were.  With a coordinate that is not finite
    it ends in the error message of the failed save, and the collection
    reads as empty. *)
Theorem X12_saveTravelEntry_outcome (trim : string -> string) (f : form)
    (s : state device) :
  (forall alert, validateForm trim f = Some alert ->
                 saveTravelEntry trim f s = (Ret (Refused alert), s))
  /\ (validateForm trim f = None ->
      settled (world s) ->
      forall lat lon uri, location f = Some (lat, lon) -> imageUri f = Some uri ->
      let s' := after (saveTravelEntry trim f) s in
      result (saveTravelEntry trim f) s
      = Ret (if finite lat && finite lon then Saved else Failed "Save operation failed")
      /\ (finite lat && finite lon = true ->
          length (collection (world s')) = S (length (collection (world s)))
          /\ exists x, x ∈ collection (world s')
                       /\ field x "title" = VStr (trim (title f))
                       /\ field x "imageUri" = VStr uri
                       /\ field x "address" = VStr (address f)
                       /\ field x "createdAt" = VNum (Fin (clock (world s) 1%nat)))
      /\ (finite lat && finite lon = false -> collection (world s') = [])
      /\ (forall r v, heap s !! r = Some v -> heap s' !! r = Some v)).
Proof.
  split.
  - intros alert Hf. unfold saveTravelEntry. by rewrite Hf.
  - intros Hf Hs lat lon uri Hloc Huri s'.
    set (e := object
           [ ("id", VStr ("entry_" +:+ toString36 (clock (world s) O) +:+ "_"
                          +:+ substr 2 9 (dice (world s) O)));
             ("imageUri", VStr uri); ("address", VStr (address f));
             ("latitude", VNum lat); ("longitude", VNum lon);
             ("createdAt", VNum (Fin (clock (world s) 1%nat)));
             ("title", VStr (trim (title f)));
             ("notes", if String.eqb (trim (notes f)) "" then VUndefined
                       else VStr (trim (notes f))) ]).
    set (r := stdpp.base.fresh (dom (heap s))).
    set (s2 := State (<[r := e]> (heap s)) (tick (roll (tick (world s))))).
    assert (validateEntry e = true) as He
      by (unfold e; destruct (String.eqb (trim (notes f)) ""); reflexivity).
    assert (finiteNumbers e = finite lat && finite lon) as Hfin.
    { unfold e, finiteNumbers.
      destruct (String.eqb (trim (notes f)) ""); cbn; by rewrite !andb_true_r. }
    assert (heap s2 !! r = Some e) as Hr by apply lookup_insert_eq.
    assert (settled (world s2)) as Hs2 by exact Hs.
    destruct (saveEntry_outcome s2 r e Hr He) as (Hres & Hok & Hko).
    cbv zeta in Hres, Hok, Hko.
    rewrite (settled_finiteNumbers _ Hs2), andb_true_r, Hfin in Hres, Hok, Hko.
    rewrite Hs2 in Hok.
    assert (saveTravelEntry trim f s
            = (if finite lat && finite lon
               then (Ret Saved, after (saveEntry r) s2)
               else (Ret (Failed "Save operation failed"), after (saveEntry r) s2)))
      as Hrun.
    { unfold saveTravelEntry. rewrite Hf.
      unfold try_catch, bind at 1.
      assert (createTravelEntry trim f s
              = (Ret e, State (heap s) (tick (roll (tick (world s)))))) as ->.
      { unfold createTravelEntry, generateId, bind, now, random36, lift, ret.
        rewrite Hloc, Huri. reflexivity. }
      unfold bind at 1. unfold alloc at 1. cbn [heap world]. fold r. fold s2.
      unfold bind, result, after in *.
      destruct (saveEntry r s2) as [[saved|err] s3]; simpl in Hres |- *;
        [|discriminate].
      injection Hres as ->. by destruct (finite lat && finite lon). }
    assert (s' = after (saveEntry r) s2) as Hs'.
    { unfold s', after at 1. rewrite Hrun. by destruct (finite lat && finite lon). }
    rewrite Hs'. split_and!.
    + unfold result. rewrite Hrun. by destruct (finite lat && finite lon).
    + intros Hyes. destruct (Hok Hyes) as (e' & Hperm & Hlen & Hfields).
      split; [exact Hlen|]. exists e'. split_and!.
      * rewrite Hperm. apply elem_of_app. right. by apply list_elem_of_singleton.
      * by rewrite Hfields.
      * by rewrite Hfields.
      * by rewrite Hfields.
      * by rewrite Hfields.
    + intros Hno. by apply Hko.
    + intros r0 v Hv. rewrite saveEntry_heap_other.
      * unfold s2. cbn [heap]. rewrite lookup_insert_ne; [done|].
        intros <-. apply (is_fresh (dom (heap s))). fold r.
        apply elem_of_dom. eauto.
      * intros ->. apply (is_fresh (dom (heap s))). fold r.
        apply elem_of_dom. eauto.
Qed.

Lemma X12_saveTravelEntry_outcome_witness :
  let s1 := after (saveEntry 1%nat) scenario_start in
  result (saveTravelEntry trimSpaces form_filled) s1 = Ret Saved
  /\ length (collection (world (after (saveTravelEntry trimSpaces form_filled) s1)))
     = 2%nat
  /\ saveTravelEntry trimSpaces (Form None "" None "" "") s1
     = (Ret (Refused ("Missing Image", "Please take a picture first")), s1).
Proof.
  cbv zeta.
  destruct (X12_saveTravelEntry_outcome trimSpaces form_filled
              (after (saveEntry 1%nat) scenario_start)) as [_ Hok].
  destruct (X12_saveTravelEntry_outcome trimSpaces (Form None "" None "" "")
              (after (saveEntry 1%nat) scenario_start)) as [Hrefused _].
  assert (settled (world (after (saveEntry 1%nat) scenario_start)))
    as Hs by (vm_compute; reflexivity).
  destruct (Hok eq_refl Hs (Fin 14) (Fin 120) "file:///photo.jpg" eq_refl eq_refl)
    as (Hres & Hgrow & _).
  split_and!.
  - exact Hres.
  - destruct (Hgrow eq_refl) as [Hlen _]. rewrite Hlen. vm_compute. reflexivity.
  - apply Hrefused. reflexivity.
Defined.

(** ** The address of the position (X13, X14) *)

Lemma filterBoolean_nonempty (parts : list (option string)) :
  Forall (fun p => p <> "") (filterBoolean parts).
Proof.
  unfold filterBoolean. apply Forall_forall. intros p Hp.
  apply list_elem_of_omap in Hp as (x & _ & Hx).
  destruct x as [[|c x]|]; simpl in Hx; try discriminate.
  injection Hx as <-. discriminate.
Qed.

Lemma filterBoolean_nil (parts : list (option string)) :
  filterBoolean parts = [] <-> Forall (fun x => present x = false) parts.
Proof.
  unfold filterBoolean. induction parts as [|x parts IH]; simpl.
  - split; [constructor|done].
  - destruct x as [[|c x]|]; simpl.
    + rewrite IH. split; [by constructor|by inversion 1].
    + split; [done|]. inversion 1; discriminate.
    + rewrite IH. split; [by constructor|by inversion 1].
Qed.

Lemma append_empty_r (p : string) : p +:+ "" = p.
Proof.
  induction p as [|c p IH]; [done|].
  change (String c (p +:+ "") = String c p). by rewrite IH.
Qed.

Lemma concat_head (sep p : string) (ps : list string) :
  exists rest, String.concat sep (p :: ps) = p +:+ rest.
Proof.
  destruct ps as [|q qs]; simpl.
  - exists "". by rewrite append_empty_r.
  - eauto.
Qed.

(** X13: [formatAddress] is the empty string exactly when none of the six
    components is present (each is [null] or empty); otherwise it begins
    with the first component that is present, with no separator before
    it. *)
Theorem X13_formatAddress_empty (a : geocodedAddress) :
  (formatAddress a = ""
   <-> present (name a) = false /\ present (street a) = false
       /\ present (district a) = false /\ present (city a) = false
       /\ present (region a) = false /\ present (country a) = false)
  /\ (forall p ps,
        filterBoolean [name a; street a; district a; city a; region a; country a]
        = p :: ps ->
        p <> "" /\ exists rest, formatAddress a = p +:+ rest).
Proof.
  unfold formatAddress.
  set (parts := [name a; street a; district a; city a; region a; country a]).
  assert (forall p ps, filterBoolean parts = p :: ps ->
            p <> "" /\ exists rest, String.concat ", " (filterBoolean parts) = p +:+ rest)
    as Hhead.
  { intros p ps Hps. split.
    - pose proof (filterBoolean_nonempty parts) as Hne. rewrite Hps in Hne.
      by inversion Hne.
    - rewrite Hps. apply concat_head. }
  split; [|exact Hhead].
  split.
  - intros Hempty.
    assert (filterBoolean parts = []) as Hnil.
    { destruct (filterBoolean parts) as [|p ps] eqn:Hps; [done|].
      destruct (Hhead p ps eq_refl) as [Hp [rest Hrest]].
      rewrite Hrest in Hempty. destruct p; [done|discriminate]. }
    apply filterBoolean_nil in Hnil. unfold parts in Hnil.
    repeat (apply Forall_cons in Hnil as [? Hnil]). by split_and!.
  - intros (H1 & H2 & H3 & H4 & H5 & H6).
    assert (filterBoolean parts = []) as ->; [|done].
    apply filterBoolean_nil. unfold parts. by repeat constructor.
Qed.

Lemma X13_formatAddress_empty_witness :
  formatAddress address_manila = "Rizal Park, Manila, Philippines"
  /\ exists rest, formatAddress address_manila = "Rizal Park" +:+ rest.
Proof.
  split; [reflexivity|].
  destruct (X13_formatAddress_empty address_manila) as [_ Hhead].
  destruct (Hhead "Rizal Park" ["Manila"; "Philippines"] eq_refl) as [_ Hrest].
  exact Hrest.
Defined.

(** X14: on every platform, [reverseGeocode] returns and does not throw.
    It returns [formatAddress] of the first address when the geocoder
    answers with one, and the fallback "Address unavailable" when the
    geocoder rejects or answers with none.  For every [trim], a form with
    an image whose address is the string returned is refused by
    [validateForm] for its address exactly when that string is empty, that
    is when the first address has no component: the fallback passes. *)
Theorem X14_reverseGeocode_total {W : Type} `{Geocoder W} (lat lon : number)
    (s : state W) :
  exists a,
    result (reverseGeocode lat lon) s = Ret a
    /\ a = match (Location_reverseGeocodeAsync lat lon (world s)).1 with
           | Ret (first :: _) => formatAddress first
           | _ => "Address unavailable"
           end
    /\ (forall (trim : string -> string) (f : form) (uri : string),
          imageUri f = Some uri -> uri <> "" -> address f = a ->
          (validateForm trim f
           = Some ("Missing Address", "Waiting for address information")
           <-> a = "")).
Proof.
  exists (match (Location_reverseGeocodeAsync lat lon (world s)).1 with
          | Ret (first :: _) => formatAddress first
          | _ => "Address unavailable"
          end).
  split_and!.
  - unfold result, reverseGeocode, try_catch, bind, lift.
    destruct (Location_reverseGeocodeAsync lat lon (world s)) as [[[|first rest]|e] w];
      reflexivity.
  - reflexivity.
  - intros trim f uri Huri Hne Ha. unfold validateForm. rewrite Huri, Ha.
    destruct uri as [|c uri]; [done|].
    match goal with |- context [String.eqb ?x ""] =>
      destruct (String.eqb x "") eqn:Hx end.
    + apply String.eqb_eq in Hx. by rewrite Hx.
    + apply String.eqb_neq in Hx. split; [|done].
      repeat case_match; discriminate.
Qed.

Lemma X14_reverseGeocode_total_witness :
  result (@reverseGeocode _ geocoder_down (Fin 14) (Fin 120)) (State ∅ tt)
  = Ret "Address unavailable"
  /\ result (@reverseGeocode _ (geocoder_fixed [GeocodedAddress None None None None None None])
               (Fin 14) (Fin 120)) (State ∅ tt) = Ret ""
  /\ validateForm trimSpaces (Form (Some "p") "" (Some (Fin 14, Fin 120)) "t" "")
     = Some ("Missing Address", "Waiting for address information").
Proof.
  destruct (@X14_reverseGeocode_total _ geocoder_down (Fin 14) (Fin 120) (State ∅ tt))
    as (a & Ha & -> & _).
  destruct (@X14_reverseGeocode_total _
              (geocoder_fixed [GeocodedAddress None None None None None None])
              (Fin 14) (Fin 120) (State ∅ tt)) as (b & Hb & Hbv & Hform).
  split_and!.
  - exact Ha.
  - rewrite Hb, Hbv. reflexivity.
  - apply (Hform trimSpaces (Form (Some "p") "" (Some (Fin 14, Fin 120)) "t" "") "p").
    + reflexivity.
    + discriminate.
    + rewrite Hbv. reflexivity.
    + rewrite Hbv. reflexivity.
Defined.

(** ** Permissions (X15) *)

(** X15: on every platform and for each of the four permissions.  The
    request function returns granted without asking when the status read
    is granted, and otherwise asks once and returns the answer; a call of
    the platform that rejects makes it throw, since nothing catches.
    [ensurePermission] returns [true] in the first case and when the answer
    is granted, without an alert; it returns [false] after showing one
    alert with the title and message given when the answer is anything
    else; and it throws, without an alert, when a call rejects. *)
Theorem X15_ensurePermission_cases {W : Type} `{PermissionsPlatform W}
    (p : permissionType) (title message : string) (s : state W) :
  let read := getOf p (world s) in
  let asked := requestOf p read.2 in
  let alerted := Alert_alert title message ["Cancel"; "Open Settings"] asked.2 in
  match read.1 with
  | Ret granted =>
      requestFor p s = (Ret granted, State (heap s) read.2)
      /\ ensurePermission p title message s = (Ret true, State (heap s) read.2)
  | Ret _ =>
      requestFor p s = (asked.1, State (heap s) asked.2)
      /\ ensurePermission p title message s
         = match asked.1 with
           | Ret granted => (Ret true, State (heap s) asked.2)
           | Ret _ => (Ret false, State (heap s) alerted)
           | Throw e => (Throw e, State (heap s) asked.2)
           end
  | Throw e =>
      requestFor p s = (Throw e, State (heap s) read.2)
      /\ ensurePermission p title message s = (Throw e, State (heap s) read.2)
  end.
Proof.
  cbv zeta.
  destruct p; cbn [getOf requestOf];
    unfold ensurePermission, requestFor, requestCameraPermission,
      requestLocationPermission, requestNotificationPermission,
      requestMediaLibraryPermission, bind, lift, ret.
  - destruct (ImagePicker_getCameraPermissionsAsync (world s)) as [[[| |]|e] w1]; cbn;
      try (split; reflexivity);
      destruct (ImagePicker_requestCameraPermissionsAsync w1) as [[[| |]|e] w2]; cbn;
      split; reflexivity.
  - destruct (Location_getForegroundPermissionsAsync (world s)) as [[[| |]|e] w1]; cbn;
      try (split; reflexivity);
      destruct (Location_requestForegroundPermissionsAsync w1) as [[[| |]|e] w2]; cbn;
      split; reflexivity.
  - destruct (Notifications_getPermissionsAsync (world s)) as [[[| |]|e] w1]; cbn;
      try (split; reflexivity);
      destruct (Notifications_requestPermissionsAsync w1) as [[[| |]|e] w2]; cbn;
      split; reflexivity.
  - destruct (MediaLibrary_getPermissionsAsync (world s)) as [[[| |]|e] w1]; cbn;
      try (split; reflexivity);
      destruct (MediaLibrary_requestPermissionsAsync w1) as [[[| |]|e] w2]; cbn;
      split; reflexivity.
Qed.

Lemma X15_ensurePermission_cases_witness :
  @ensurePermission _ phone_platform camera "Camera" "Needed" phone_start
  = (Ret true, phone_start)
  /\ result (@ensurePermission _ phone_platform location' "Location" "Needed") phone_start
     = Ret false
  /\ prompts (world (after (@ensurePermission _ phone_platform location' "Location"
                              "Needed") phone_start)) = [location']
  /\ shown (world (after (@ensurePermission _ phone_platform location' "Location"
                            "Needed") phone_start)) = [("Location", "Needed")].
Proof.
  pose proof (@X15_ensurePermission_cases _ phone_platform camera "Camera" "Needed"
                phone_start) as Hcamera.
  pose proof (@X15_ensurePermission_cases _ phone_platform location' "Location" "Needed"
                phone_start) as Hlocation.
  cbv zeta in Hcamera, Hlocation.
  destruct Hcamera as [_ Hcamera]. destruct Hlocation as [_ Hlocation].
  split_and!.
  - exact Hcamera.
  - unfold result. rewrite Hlocation. reflexivity.
  - unfold after. rewrite Hlocation. reflexivity.
  - unfold after. rewrite Hlocation. reflexivity.
Defined.

(** * Further properties of the validator and of [updateEntry] *)

(** ** What [validateEntry] refuses and what it does not look at (X16, X17) *)

(** X16: [validateEntry] returns [false] for every value that is not an
    object: [undefined], [null], a boolean, a number, a string, and an
    array, whatever it holds; and for every object in which one of the six
    required fields is missing or is not of its type. *)
Theorem X16_validateEntry_refuses (v : value) :
  (match v with VObj _ => False | _ => True end -> validateEntry v = false)
  /\ (forall name type,
        (name, type) ∈ requiredFields ->
        typeof (field v name) <> type ->
        validateEntry v = false).
Proof.
  split.
  - destruct v as [| |[]|[[]| | |]|[]| |]; simpl; try done.
  - intros name type Hin Htype.
    destruct (validateEntry v) eqn:Hv; [exfalso|done].
    apply validateEntry_true in Hv as (_ & Hreq & _).
    rewrite forallb_forall in Hreq.
    specialize (Hreq (name, type) (proj1 (list_elem_of_In _ _) Hin)).
    simpl in Hreq. by apply String.eqb_eq in Hreq.
Qed.

Lemma X16_validateEntry_refuses_witness :
  validateEntry (VArr [entry_a]) = false
  /\ validateEntry (object [("id", VNum (Fin 123))]) = false.
Proof.
  destruct (X16_validateEntry_refuses (VArr [entry_a])) as [Harr _].
  destruct (X16_validateEntry_refuses (object [("id", VNum (Fin 123))])) as [_ Hreq].
  split.
  - by apply Harr.
  - apply (Hreq "id" "string"); [|discriminate].
    unfold requiredFields. by left.
Defined.

(** X17: a property that [validateEntry] does not read has no part in its
    answer: adding, changing or, for [delete], leaving out a property whose
    name is not one of the ten it reads gives the same result, whatever the
    value. *)
Theorem X17_validateEntry_unknown_property (props : gmap string value)
    (name : string) (x : value) :
  name ∉ knownFields ->
  validateEntry (VObj (<[name := x]> props)) = validateEntry (VObj props)
  /\ validateEntry (VObj (delete name props)) = validateEntry (VObj props).
Proof.
  intros Hname.
  assert (forall k, k ∈ knownFields -> name <> k) as Hne
    by (intros k Hk ->; done).
  assert (forall k, k ∈ knownFields ->
            field (VObj (<[name := x]> props)) k = field (VObj props) k) as Hins.
  { intros k Hk. unfold field. by rewrite lookup_insert_ne by (by apply Hne). }
  assert (forall k, k ∈ knownFields ->
            field (VObj (delete name props)) k = field (VObj props) k) as Hdel.
  { intros k Hk. unfold field. by rewrite lookup_delete_ne by (by apply Hne). }
  unfold validateEntry. cbn [forallb requiredFields fst snd falsy typeof].
  split.
  - rewrite !Hins; [done|apply list_elem_of_In; simpl; tauto..].
  - rewrite !Hdel; [done|apply list_elem_of_In; simpl; tauto..].
Qed.

Lemma X17_validateEntry_unknown_property_witness :
  validateEntry (set_field "rating" (VNum NaN) entry_a) = true.
Proof.
  assert ("rating" ∉ knownFields) as Hname.
  { intros Hin%list_elem_of_In. simpl in Hin. intuition discriminate. }
  destruct (X17_validateEntry_unknown_property
              (list_to_map
                 [ ("id", VStr "a"); ("imageUri", VStr "u"); ("address", VStr "addr");
                   ("latitude", VNum (Fin 1)); ("longitude", VNum (Fin 2));
                   ("createdAt", VNum (Fin 1000)) ])
              "rating" (VNum NaN) Hname) as [Hins _].
  exact Hins.
Defined.

(** ** An update that cannot be read back (X18) *)

Lemma forallb_false_elem (f : value -> bool) (xs : list value) (x : value) :
  x ∈ xs -> f x = false -> forallb f xs = false.
Proof.
  intros Hx Hf. destruct (forallb f xs) eqn:Hall; [|done].
  rewrite forallb_forall in Hall.
  rewrite (Hall x) in Hf; [done|by apply list_elem_of_In].
Qed.

(** X18: on the device, [updateEntry] of a valid entry one of whose three
    numbers is not finite, under an id that occurs in the collection,
    returns [false], and the whole collection reads as empty from then on:
    the array written holds a [null] where the number was and fails
    [validateEntries]. *)
Theorem X18_updateEntry_not_finite (s : state device) (l : ref) (e : value) :
  heap s !! l = Some e ->
  validateEntry e = true ->
  finiteNumbers e = false ->
  field e "id" ∈ ids (collection (world s)) ->
  result (updateEntry l) s = Ret false
  /\ collection (world (after (updateEntry l) s)) = []
  /\ length (persisted (world (after (updateEntry l) s)))
     = length (collection (world s)).
Proof.
  intros Hl He Hfin Hin.
  destruct (validateEntry_object e He) as [props ->].
  destruct (validateEntry_id _ He) as [id Hid]. rewrite Hid in *.
  apply existsb_hasId in Hin.
  destruct (findIndex_found _ _ Hin) as (n & old & Hn & Hold & Hp & _).
  set (e' := VObj (omap reread props)).
  set (xs := collection (world s)) in *.
  assert (validateEntry e' = false) as He'.
  { unfold e'. by rewrite validateEntry_written. }
  assert (n < length xs)%nat as Hlt by (by eapply lookup_lt_Some).
  set (d' := write ENTRIES (JSON_stringify (VArr (<[n := VObj props]> xs))) (world s)).
  assert (collection d' = []) as Hcol.
  { unfold d'. rewrite collection_write, decoded_mapped, map_list_insert.
    change (reread_element (VObj props)) with e'.
    rewrite (forallb_false_elem validateEntry _ e'); [done| |done].
    apply list_elem_of_lookup. exists n.
    apply list_lookup_insert_eq. by rewrite length_map. }
  assert (updateEntry l s = (Ret false, State (heap s) d')) as Hrun.
  { unfold updateEntry. apply try_catch_Ret.
    step_with ltac:(by apply deref_Some).
    rewrite He. cbn [negb]. step.
    step_with ltac:(apply getEntries_device).
    step_with ltac:(by apply deref_Some).
    rewrite Hid. fold xs. rewrite Hn.
    replace (Z.of_nat n =? -1) with false by (symmetry; apply Z.eqb_neq; lia).
    step_with ltac:(by apply deref_Some).
    rewrite Nat2Z.id.
    step. step_with ltac:(apply getEntries_device).
    erewrite bind_Ret by (apply deref_Some; exact Hl).
    cbn [heap world AsyncStorage_setItem device_platform fst snd].
    fold d'. rewrite Hcol. reflexivity. }
  unfold result, after. rewrite Hrun. cbn [fst snd world].
  split_and!; [done|done|].
  unfold d'. by rewrite persisted_write, length_map, length_insert.
Qed.

Lemma X18_updateEntry_not_finite_witness :
  let s1 := State (<[1%nat := set_field "id" (VStr "a") entry_nan]> ∅)
                  (world (after (saveEntry 1%nat) scenario_start)) in
  result (updateEntry 1%nat) s1 = Ret false
  /\ length (collection (world s1)) = 1%nat
  /\ collection (world (after (updateEntry 1%nat) s1)) = [].
Proof.
  cbv zeta.
  set (s1 := State (<[1%nat := set_field "id" (VStr "a") entry_nan]> ∅)
                   (world (after (saveEntry 1%nat) scenario_start))).
  assert (heap s1 !! 1%nat = Some (set_field "id" (VStr "a") entry_nan))
    as Hl by reflexivity.
  assert (validateEntry (set_field "id" (VStr "a") entry_nan) = true)
    as He by reflexivity.
  assert (finiteNumbers (set_field "id" (VStr "a") entry_nan) = false)
    as Hfin by reflexivity.
  assert (field (set_field "id" (VStr "a") entry_nan) "id" ∈ ids (collection (world s1)))
    as Hin by (apply existsb_hasId; vm_compute; reflexivity).
  destruct (X18_updateEntry_not_finite s1 1%nat _ Hl He Hfin Hin) as (Hres & Hcol & _).
  split_and!; [exact Hres|vm_compute; reflexivity|exact Hcol].
Defined.
